(** * Synthetic Vietnamese real-estate rows: generator and CSV appender

    A shallow embedding of [generate_synthetic_vn_real_estate.py].

    - Python [str] values are Rocq strings; a literal written here in UTF-8
      is the byte sequence the Python file holds.  Every character the CSV
      dialect treats specially is ASCII, so bytes and code points agree on
      where fields and lines end.
    - Python [int] is [Z]; Python [float] is [Q] (every finite float is a
      rational; rounding of float arithmetic is not modelled).
    - The ambient random state ([random] and Faker's generator) is an oracle
      tape read left to right; every primitive consumes one entry.
    - The file system is a finite map from paths to the decoded text of
      regular, readable and writable files. *)

From Stdlib Require Import ZArith QArith Qround Qabs Lia Lqa List.
From Stdlib Require Import Ascii String DecimalString DecimalZ.
From stdpp Require Import base option strings gmap.
Import ListNotations.

Local Open Scope Z_scope.
Local Open Scope string_scope.

(** ** Python values used by the script *)

(** [str(n)] for an [int]. *)
Definition str (n : Z) : string := NilZero.string_of_int (Z.to_int n).

(** [int(s)] for a [str] holding an optionally signed decimal numeral;
    [None] stands for [ValueError]. *)
Definition int_of_str (s : string) : option Z :=
  option_map Z.of_int (NilZero.int_of_string s).

(** [int(x)] for a [float]: truncation toward zero. *)
Definition int_of_float (x : Q) : Z := Z.quot (Qnum x) (Zpos (Qden x)).

(** [min(a, b)] and [max(a, b)] as the interpreter computes them: the first
    argument is kept unless the second is strictly smaller (larger). *)
Definition py_min (a b : Q) : Q := if Qlt_le_dec b a then b else a.
Definition py_max (a b : Q) : Q := if Qlt_le_dec a b then b else a.

(** [round(x)]: nearest integer, ties to even. *)
Definition round_half_even (x : Q) : Z :=
  let f := Qfloor x in
  match Qcompare (x - inject_Z f) (1 # 2) with
  | Lt => f
  | Gt => f + 1
  | Eq => if Z.even f then f else f + 1
  end.

(** [f"{x:.1f}"]: one fractional digit, correctly rounded. *)
Definition format_1f (x : Q) : string :=
  let n := round_half_even (Qabs x * (10 # 1)) in
  (if (Qnum x <? 0)%Z then "-" else EmptyString)
    +:+ str (n / 10)%Z +:+ "." +:+ str (n mod 10)%Z.

(** [x in l] for a list of strings. *)
Definition py_in (x : string) (l : list string) : bool :=
  existsb (String.eqb x) l.

(** ** Module constants *)

Definition PROPERTY_TYPES : list string := ["Căn hộ, chung cư"].
Definition TRANSACTION_TYPES : list string := ["Cần bán"; "Cần thuê"].
Definition CITY : string := "Hồ Chí Minh".
Definition DISTRICTS : list string :=
  [ "Quận 9"; "Quận Tân Bình"; "Quận Tân Phú"; "Quận 7"; "Quận 2"; "Quận 11";
    "Quận Thủ Đức"; "Huyện Bình Chánh"; "Quận Bình Tân"; "Quận 12"; "Quận 1";
    "Quận 3" ].
Definition DIRECTIONS : list string :=
  [ "Đông Bắc"; "Tây"; "Nam"; "Tây Bắc"; "Bắc"; "Tây Nam"; "Đông"; "Đông Nam" ].
Definition LEGAL_PAPERS : list string := [ "Đã có sổ"; "Đang chờ sổ"; EmptyString ].
Definition HEADER : list string :=
  [ "GIỐNG - LOẠI"; "GIỐNG - NHU CẦU"; "GIỐNG - TỈNH THÀNH"; "QUẬN HUYỆN";
    "GIÁ - TRIỆU ĐỒNG"; "DIỆN TÍCH - M2"; "HƯỚNG"; "SỐ TẦNG";
    "SỐ PHÒNG"; "SỐ TOILETS"; "GIẤY TỜ PHÁP LÝ" ].

(** The dictionary literal local to [generate_row], as its three entries. *)
Definition DISTRICT_PRICE_RANGE : list (string * list string) :=
  [ ("cao",   [ "Quận 1"; "Quận 3"; "Quận 4"; "Quận 5"; "Quận Bình Thạnh";
                "Quận Phú Nhuận"; "Quận 10" ]);
    ("trung", [ "Quận 2"; "Quận 7"; "Quận Tân Bình"; "Quận Tân Phú"; "Quận 11";
                "Quận 9"; "Quận Thủ Đức" ]);
    ("thap",  [ "Quận 12"; "Quận Bình Tân"; "Huyện Bình Chánh"; "Huyện Nhà Bè";
                "Huyện Hóc Môn" ]) ].

(** [d[k]] on such a dictionary; the script only uses keys that are present. *)
Fixpoint dict_get (d : list (string * list string)) (k : string) : list string :=
  match d with
  | [] => []
  | (k', v) :: d' => if String.eqb k k' then v else dict_get d' k
  end.

(** ** Ambient randomness *)

Record rng := Rng { tape : nat -> Q; pos : nat }.

(** Computations that read the random state. *)
Definition Gen (A : Type) : Type := rng -> A * rng.

Definition gret {A} (a : A) : Gen A := fun r => (a, r).
Definition gbind {A B} (m : Gen A) (f : A -> Gen B) : Gen B :=
  fun r => f (fst (m r)) (snd (m r)).

Declare Scope gen_scope.
Delimit Scope gen_scope with gen.
Notation "x <- m ;; k" := (gbind m (fun x => k))
  (at level 100, m at next level, right associativity) : gen_scope.
Local Open Scope gen_scope.

(** One entry of the tape. *)
Definition draw : Gen Q :=
  fun r => (tape r (pos r), Rng (tape r) (S (pos r))).

(** A computation keeps the tape when it leaves the entries as they are and
    never moves the reading position back. *)
Definition keeps_tape {A} (m : Gen A) : Prop :=
  forall r, tape (snd (m r)) = tape r /\ (pos r <= pos (snd (m r)))%nat.

(** *** The module [random] and Faker's generator, on the tape *)

Module random.

(** [random.random()]: a value in [0, 1). *)
Definition random : Gen Q :=
  q <- draw ;; gret (q - inject_Z (Qfloor q))%Q.

(** [_randbelow(n)], the index source of [choice] and [randint]. *)
Definition randbelow (n : Z) : Gen Z :=
  q <- draw ;; gret (Qfloor q mod n).

(** [random.choice(seq)].  On an empty sequence Python raises [IndexError];
    the sequences the script passes are non-empty constants. *)
Definition choice (seq : list string) : Gen string :=
  i <- randbelow (Z.of_nat (length seq)) ;; gret (nth (Z.to_nat i) seq EmptyString).

(** [random.gauss(mu, sigma)] is [mu + z * sigma] for a standard normal [z]. *)
Definition gauss (mu sigma : Q) : Gen Q :=
  z <- draw ;; gret (mu + z * sigma)%Q.

(** [random.uniform(a, b)] is [a + (b - a) * random()]. *)
Definition uniform (a b : Q) : Gen Q :=
  u <- random ;; gret (a + (b - a) * u)%Q.

(** [random.randint(a, b)] is [a + _randbelow(b - a + 1)]. *)
Definition randint (a b : Z) : Gen Z :=
  i <- randbelow (b - a + 1) ;; gret (a + i).

End random.

Module fake.

(** [fake.random_element(elements=...)]: one element, uniformly. *)
Definition random_element (elements : list string) : Gen string :=
  i <- random.randbelow (Z.of_nat (length elements)) ;;
  gret (nth (Z.to_nat i) elements EmptyString).

End fake.

(** ** The row generator *)

Definition sometimes_empty (value_func : Gen string) (empty_prob : Q) : Gen string :=
  u <- random.random ;;
  if Qlt_le_dec u empty_prob then gret EmptyString else value_func.

(** The tier test of lines 56-61: (price_min, price_max). *)
Definition price_range (district : string) : Z * Z :=
  if py_in district (dict_get DISTRICT_PRICE_RANGE "cao") then (3500, 8000)
  else if py_in district (dict_get DISTRICT_PRICE_RANGE "trung") then (2000, 6000)
  else (1000, 4000).

(** The tier test of lines 72-77: the bounds handed to [random.uniform]. *)
Definition area_range (district : string) : Z * Z :=
  if py_in district (dict_get DISTRICT_PRICE_RANGE "cao") then (25, 90)
  else if py_in district (dict_get DISTRICT_PRICE_RANGE "trung") then (40, 120)
  else (50, 150).

(** The closure [random_price] with its two captured variables. *)
Definition random_price (price_min price_max : Z) : Gen Z :=
  let mean := ((inject_Z price_min + inject_Z price_max) / (2 # 1))%Q in
  let std_dev := ((inject_Z price_max - inject_Z price_min) / (6 # 1))%Q in
  g <- random.gauss mean std_dev ;;
  let val := py_max (inject_Z price_min) (py_min (inject_Z price_max) g) in
  gret (int_of_float val).

Definition generate_row : Gen (list string) :=
  prop_type <- random.choice PROPERTY_TYPES ;;
  u <- random.random ;;
  need <- (if Qlt_le_dec u (95 # 100) then gret "Cần bán"
           else random.choice TRANSACTION_TYPES) ;;
  let province := CITY in
  district <- fake.random_element DISTRICTS ;;
  let price_min := fst (price_range district) in
  let price_max := snd (price_range district) in
  price <- sometimes_empty (p <- random_price price_min price_max ;; gret (str p))
                           (3 # 100) ;;
  area_val <- random.uniform (inject_Z (fst (area_range district)))
                             (inject_Z (snd (area_range district))) ;;
  area <- sometimes_empty (gret (format_1f area_val)) (5 # 100) ;;
  direction <- sometimes_empty (fake.random_element DIRECTIONS) (4 # 10) ;;
  let floors := EmptyString in
  rooms <- sometimes_empty (n <- random.randint 1 4 ;; gret (str n)) (12 # 100) ;;
  toilets <- sometimes_empty (n <- random.randint 1 3 ;; gret (str n)) (12 # 100) ;;
  legal <- sometimes_empty (fake.random_element LEGAL_PAPERS) (25 # 100) ;;
  gret [ prop_type; need; province; district; price; area; direction; floors;
         rooms; toilets; legal ].

(** A tape given by its first entries; later entries are [0]. *)
Definition tape_of (l : list Q) : nat -> Q := fun i => nth i l (0 # 1).


(** ** Text files

    Iterating a file opened with [newline='']: lines end after LF, after
    CR LF, or after a lone CR, and keep their terminator. *)

Definition CR : ascii := "013"%char.
Definition LF : ascii := "010"%char.

Fixpoint lines_of (s : string) : list string :=
  match s with
  | EmptyString => []
  | String c rest =>
      if Ascii.eqb c LF then String c EmptyString :: lines_of rest
      else if Ascii.eqb c CR then
        match rest with
        | String c' rest' =>
            if Ascii.eqb c' LF
            then String c (String c' EmptyString) :: lines_of rest'
            else String c EmptyString :: lines_of rest
        | EmptyString => [String c EmptyString]
        end
      else
        match lines_of rest with
        | [] => [String c EmptyString]
        | l :: ls => String c l :: ls
        end
  end.

(** A line as the file iterator yields it: no line break before its end. *)
Fixpoint line_ok (l : string) : bool :=
  match l with
  | EmptyString => true
  | String c rest =>
      if Ascii.eqb c LF then String.eqb rest EmptyString
      else if Ascii.eqb c CR
           then String.eqb rest EmptyString || String.eqb rest (String LF EmptyString)
      else line_ok rest
  end.

(** ** Python's [csv] module, dialect [excel]

    Comma as delimiter, the double quote as quote character, [doublequote],
    minimal quoting, line terminator CR LF, no escape character, not
    strict.  The branches of the C implementation that only other dialects
    reach are left out, and so is the reader's field size limit (131072
    characters by default). *)

Module csv.

Definition DELIMITER : ascii := ","%char.
Definition QUOTECHAR : ascii := "034"%char.
Definition LINETERMINATOR : string := String CR (String LF EmptyString).

(** *** Writer *)

Definition needs_quoting (c : ascii) : bool :=
  Ascii.eqb c DELIMITER || Ascii.eqb c QUOTECHAR || Ascii.eqb c CR || Ascii.eqb c LF.

Fixpoint string_exists (f : ascii -> bool) (s : string) : bool :=
  match s with
  | EmptyString => false
  | String c s' => f c || string_exists f s'
  end.

(** The characters of a field, each quote character doubled. *)
Fixpoint join_append_data (s : string) : string :=
  match s with
  | EmptyString => EmptyString
  | String c s' =>
      if Ascii.eqb c QUOTECHAR
      then String QUOTECHAR (String QUOTECHAR (join_append_data s'))
      else String c (join_append_data s')
  end.

Definition join_append (field : string) : string :=
  if string_exists needs_quoting field
  then String QUOTECHAR (join_append_data field) +:+ String QUOTECHAR EmptyString
  else field.

Fixpoint join_fields (row : list string) : string :=
  match row with
  | [] => EmptyString
  | [f] => join_append f
  | f :: row' => join_append f +:+ String DELIMITER (join_fields row')
  end.

(** [writer.writerow(row)]: the text written for one row.  A row whose only
    field is empty is written as a pair of quotes. *)
Definition writerow (row : list string) : string :=
  match row with
  | [EmptyString] => String QUOTECHAR (String QUOTECHAR LINETERMINATOR)
  | _ => join_fields row +:+ LINETERMINATOR
  end.

Fixpoint writerows (rows : list (list string)) : string :=
  match rows with
  | [] => EmptyString
  | row :: rows' => writerow row +:+ writerows rows'
  end.

(** *** Reader *)

Inductive reader_state : Set :=
| START_RECORD | START_FIELD | IN_FIELD | IN_QUOTED_FIELD
| QUOTE_IN_QUOTED_FIELD | EAT_CRNL.

Record parser := Parser {
  state : reader_state;
  fields : list string;   (* fields saved so far *)
  field : string          (* the field being read *)
}.

Definition parse_reset : parser := Parser START_RECORD [] EmptyString.

Definition parse_save_field (st : reader_state) (p : parser) : parser :=
  Parser st (fields p ++ [field p]) EmptyString.

Definition parse_add_char (st : reader_state) (c : ascii) (p : parser) : parser :=
  Parser st (fields p) (field p +:+ String c EmptyString).

Definition set_state (st : reader_state) (p : parser) : parser :=
  Parser st (fields p) (field p).

Definition is_newline (c : ascii) : bool := Ascii.eqb c LF || Ascii.eqb c CR.

Definition start_field (p : parser) (c : option ascii) : parser :=
  match c with
  | None => parse_save_field START_RECORD p
  | Some ch =>
      if is_newline ch then parse_save_field EAT_CRNL p
      else if Ascii.eqb ch QUOTECHAR then set_state IN_QUOTED_FIELD p
      else if Ascii.eqb ch DELIMITER then parse_save_field START_FIELD p
      else parse_add_char IN_FIELD ch p
  end.

(** [parse_process_char]: one character, or [None] for the end of the line.
    The result [None] is [csv.Error]. *)
Definition parse_process_char (p : parser) (c : option ascii) : option parser :=
  match state p with
  | START_RECORD =>
      match c with
      | None => Some p
      | Some ch =>
          if is_newline ch then Some (set_state EAT_CRNL p)
          else Some (start_field p c)
      end
  | START_FIELD => Some (start_field p c)
  | IN_FIELD =>
      match c with
      | None => Some (parse_save_field START_RECORD p)
      | Some ch =>
          if is_newline ch then Some (parse_save_field EAT_CRNL p)
          else if Ascii.eqb ch DELIMITER then Some (parse_save_field START_FIELD p)
          else Some (parse_add_char IN_FIELD ch p)
      end
  | IN_QUOTED_FIELD =>
      match c with
      | None => Some p
      | Some ch =>
          if Ascii.eqb ch QUOTECHAR then Some (set_state QUOTE_IN_QUOTED_FIELD p)
          else Some (parse_add_char IN_QUOTED_FIELD ch p)
      end
  | QUOTE_IN_QUOTED_FIELD =>
      match c with
      | None => Some (parse_save_field START_RECORD p)
      | Some ch =>
          if Ascii.eqb ch QUOTECHAR then Some (parse_add_char IN_QUOTED_FIELD ch p)
          else if Ascii.eqb ch DELIMITER then Some (parse_save_field START_FIELD p)
          else if is_newline ch then Some (parse_save_field EAT_CRNL p)
          else Some (parse_add_char IN_FIELD ch p)
      end
  | EAT_CRNL =>
      match c with
      | None => Some (set_state START_RECORD p)
      | Some ch => if is_newline ch then Some p else None
      end
  end.

Fixpoint process_line (p : parser) (line : string) : option parser :=
  match line with
  | EmptyString => Some p
  | String c rest =>
      match parse_process_char p (Some c) with
      | Some p' => process_line p' rest
      | None => None
      end
  end.

Inductive next_result : Type :=
| Record_ (fs : list string)
| StopIteration
| csv_Error.

Definition state_eqb (a b : reader_state) : bool :=
  match a, b with
  | START_RECORD, START_RECORD | START_FIELD, START_FIELD | IN_FIELD, IN_FIELD
  | IN_QUOTED_FIELD, IN_QUOTED_FIELD
  | QUOTE_IN_QUOTED_FIELD, QUOTE_IN_QUOTED_FIELD | EAT_CRNL, EAT_CRNL => true
  | _, _ => false
  end.

(** The loop of [Reader_iternext] over the lines still to come. *)
Fixpoint reader_loop (p : parser) (lines : list string) : next_result :=
  match lines with
  | [] =>
      if negb (String.eqb (field p) EmptyString) || state_eqb (state p) IN_QUOTED_FIELD
      then Record_ (fields (parse_save_field (state p) p))
      else StopIteration
  | line :: lines' =>
      match process_line p line with
      | None => csv_Error
      | Some p1 =>
          match parse_process_char p1 None with
          | None => csv_Error
          | Some p2 =>
              if state_eqb (state p2) START_RECORD then Record_ (fields p2)
              else reader_loop p2 lines'
          end
      end
  end.

(** [next(csv.reader(f))] on a file just opened. *)
Definition reader_next (text : string) : next_result :=
  reader_loop parse_reset (lines_of text).

End csv.

Import csv.

(** ** The file appender *)

(** What [print] writes, one constructor per format string of the script. *)
Inductive out_line : Type :=
| Warning_header_length
    (* Warning: existing CSV header length differs from generator header. *)
| Existing_header (n : nat) (h : list string)
    (* Existing header (n): h *)
| Generator_header (n : nat) (h : list string)
    (* Generator header (n): h *)
| Appended (n : nat) (target_path : string).
    (* Appended n synthetic rows to target_path *)

Record world := World {
  files : gmap string string;
  random_state : rng;
  stdout : list out_line
}.

Inductive exn : Type :=
| FileNotFoundError (target_path : string)
| csv_Error_raised.

(** The values a function of the script can hand back to its caller. *)
Inductive py_value : Type :=
| PyNone
| PyInt (n : Z).

(** How a call ends. *)
Inductive outcome : Type :=
| Returned (v : py_value)
| Raised (e : exn).

(** [os.path.exists(path)]. *)
Definition path_exists (w : world) (path : string) : bool :=
  match files w !! path with Some _ => true | None => false end.

(** Lines 108-117: the first record, [[]] on [StopIteration], and the
    fallback to [HEADER] when that is empty.  [None] is [csv.Error]. *)
Definition read_existing_header (text : string) : option (list string) :=
  match csv.reader_next text with
  | csv_Error => None
  | StopIteration => Some HEADER
  | Record_ [] => Some HEADER
  | Record_ fs => Some fs
  end.

(** Lines 120-123. *)
Definition header_warning (existing_header : list string) : list out_line :=
  if Nat.eqb (length existing_header) (length HEADER) then []
  else [ Warning_header_length;
         Existing_header (length existing_header) existing_header;
         Generator_header (length HEADER) HEADER ].

(** Line 126: [[generate_row() for _ in range(count)]], by the number of
    iterations. *)
Fixpoint new_rows (n : nat) : Gen (list (list string)) :=
  match n with
  | O => gret []
  | S n' => r <- generate_row ;; rs <- new_rows n' ;; gret (r :: rs)
  end.

(** The state after one more call of the generator. *)
Abbreviation next_state := (fun r : rng => snd (generate_row r)).

(** [len(range(count))]. *)
Definition range_len (count : Z) : nat := Z.to_nat count.

(** Lines 131-134: the body of the alignment loop for one row, [n] being
    [len(existing_header)]. *)
Definition align_row (n : nat) (r : list string) : list string :=
  if (length r <? n)%nat then r ++ repeat EmptyString (n - length r)
  else if (n <? length r)%nat then firstn n r
  else r.

(** The function has no [return] statement: a call that ends normally
    returns [None], and the row count only appears in what it prints.  The
    second lookup is [open], which the test before it keeps from failing. *)
Definition append_synthetic_rows (target_path : string) (count : Z) (w : world)
  : outcome * world :=
  if negb (path_exists w target_path)
  then (Raised (FileNotFoundError target_path), w)
  else
    match files w !! target_path with
    | None => (Raised (FileNotFoundError target_path), w)
    | Some text =>
        match read_existing_header text with
        | None => (Raised csv_Error_raised, w)
        | Some existing_header =>
            let out := header_warning existing_header in
            let g := new_rows (range_len count) (random_state w) in
            let aligned_rows := map (align_row (length existing_header)) (fst g) in
            (Returned PyNone,
             World (<[target_path := text +:+ csv.writerows aligned_rows]> (files w))
                   (snd g)
                   (stdout w ++ out ++ [Appended (length aligned_rows) target_path]))
        end
    end.

(** ** Reading a row *)

(** The positions of the [return] statement of [generate_row]. *)
Definition row_district (row : list string) : string := nth 3 row EmptyString.
Definition row_price (row : list string) : string := nth 4 row EmptyString.
Definition row_floors (row : list string) : string := nth 7 row EmptyString.

(** The tiers whose district list holds [district]. *)
Definition tiers_of (district : string) : list string :=
  map fst (List.filter (fun kv => py_in district (snd kv)) DISTRICT_PRICE_RANGE).

(** The random state used in the examples: the district drawn is the
    eleventh of [DISTRICTS], the standard normal draw is 1/1024. *)
Definition sample_rng : rng :=
  Rng (tape_of [ 0#1; 1#2; 10#1; 1#2; 1#1024; 1#2; 1#2; 1#2; 2#1; 1#2; 2#1; 1#2;
                 1#1; 1#2; 0#1; 1#2; 0#1 ]) 0.


(** A world with one three-column file, used in the examples. *)
Definition sample_text : string := "a,b,c" +:+ LINETERMINATOR.
Definition sample_world : world :=
  World {[ "data.csv" := sample_text ]} sample_rng [].

(** A field between double quotes, for writing down expected file text. *)
Definition quoted (s : string) : string :=
  String QUOTECHAR s +:+ String QUOTECHAR EmptyString.

(** ** Reading a record whose text is known *)

(** The characters of a record given to the parser one after the other,
    without the line structure: [None] when a line break comes outside a
    quoted field (there the reader would end the record) or the parser
    fails. *)
Fixpoint process_record (p : parser) (t : string) : option parser :=
  match t with
  | EmptyString => Some p
  | String c rest =>
      if is_newline c && negb (state_eqb (state p) IN_QUOTED_FIELD) then None
      else match parse_process_char p (Some c) with
           | Some p' => process_record p' rest
           | None => None
           end
  end.

(** The fields of the record when a line break follows in state [p]: the
    field being read is saved, unless the record has not begun. *)
Definition fields_at_break (p : parser) : list string :=
  if state_eqb (state p) START_RECORD then fields p
  else (fields p ++ [field p])%list.

(** What the reader holds after the text of one field, read from the start
    of a record or of a field. *)
Definition after_field (st : reader_state) (fs : list string) (f : string) : parser :=
  match f with
  | EmptyString => Parser st fs EmptyString
  | _ => if string_exists needs_quoting f
         then Parser QUOTE_IN_QUOTED_FIELD fs f
         else Parser IN_FIELD fs f
  end.

(** The text of a row, without its line terminator, read from the start
    of a record. *)
Definition row_text (row : list string) : string :=
  match row with
  | [EmptyString] => String QUOTECHAR (String QUOTECHAR EmptyString)
  | _ => join_fields row
  end.


(** The variable [aligned_rows] of [append_synthetic_rows]: the rows a
    call writes, for a header of [n] columns. *)
Definition aligned_rows (n : nat) (count : Z) (r : rng) : list (list string) :=
  map (align_row n) (fst (new_rows (range_len count) r)).


Definition empty_file_world : world :=
  World {[ "data.csv" := EmptyString ]} sample_rng [].

(** Whether [line], read from the start of a record, is a whole record once
    a line break follows: no line break outside quotes, no quoted field
    left open. *)
Definition complete_record (line : string) : bool :=
  match process_record parse_reset line with
  | Some q => negb (state_eqb (state q) IN_QUOTED_FIELD)
              && negb (state_eqb (state q) EAT_CRNL)
  | None => false
  end.

(** ** [detect_header]

    [str.strip()] removes the characters [str.isspace] accepts from both
    ends.  They are given here by their UTF-8 bytes: U+0009 to U+000D,
    U+001C to U+0020, U+0085, U+00A0, U+1680, U+2000 to U+200A, U+2028,
    U+2029, U+202F, U+205F and U+3000.  In the encoding of a Python string
    no other byte sequence begins or ends with one of these. *)

Definition byte_is (c : ascii) (n : nat) : bool := Nat.eqb (nat_of_ascii c) n.

Definition ascii_space (c : ascii) : bool :=
  let n := nat_of_ascii c in
  (9 <=? n)%nat && (n <=? 13)%nat || (28 <=? n)%nat && (n <=? 32)%nat.

Definition space2 (c1 c2 : ascii) : bool :=
  (byte_is c2 133 || byte_is c2 160) && byte_is c1 194.

Definition space3 (c1 c2 c3 : ascii) : bool :=
  let n3 := nat_of_ascii c3 in
  ((128 <=? n3)%nat && (n3 <=? 138)%nat
   || byte_is c3 168 || byte_is c3 169 || byte_is c3 175)
    && (byte_is c1 226 && byte_is c2 128)
  || byte_is c3 159 && (byte_is c1 226 && byte_is c2 129)
  || byte_is c3 128 && (byte_is c1 225 && byte_is c2 154
                        || byte_is c1 227 && byte_is c2 128).

(** [s.lstrip()]. *)
Fixpoint lstrip (s : string) : string :=
  match s with
  | EmptyString => s
  | String c1 rest1 =>
      if ascii_space c1 then lstrip rest1
      else match rest1 with
           | EmptyString => s
           | String c2 rest2 =>
               if space2 c1 c2 then lstrip rest2
               else match rest2 with
                    | EmptyString => s
                    | String c3 rest3 =>
                        if space3 c1 c2 c3 then lstrip rest3 else s
                    end
           end
  end.

(** [s.isspace()] or [s] is empty. *)
Fixpoint all_space (s : string) : bool :=
  match s with
  | EmptyString => true
  | String c1 rest1 =>
      if ascii_space c1 then all_space rest1
      else match rest1 with
           | EmptyString => false
           | String c2 rest2 =>
               if space2 c1 c2 then all_space rest2
               else match rest2 with
                    | EmptyString => false
                    | String c3 rest3 =>
                        if space3 c1 c2 c3 then all_space rest3 else false
                    end
           end
  end.

(** [s.rstrip()]: what is left when the longest tail of whitespace goes. *)
Fixpoint rstrip (s : string) : string :=
  match s with
  | EmptyString => EmptyString
  | String c rest => if all_space s then EmptyString else String c (rstrip rest)
  end.

(** [s.strip()]. *)
Definition strip (s : string) : string := rstrip (lstrip s).

Definition detect_header (existing_header desired_header : list string) : bool :=
  match existing_header with
  | [] => false
  | _ =>
      let ex := map strip existing_header in
      let de := map strip desired_header in
      if List.list_eq_dec String.string_dec ex de then true else false
  end.

(** The sixth field of a row. *)
Definition row_area (row : list string) : string := nth 5 row EmptyString.

(** ** [main]

    [parser.parse_args()] is taken as done: [main] starts from the
    namespace it yields. *)
Record Namespace := { args_count : Z; args_file : string }.

(** The defaults of the two options. *)
Definition default_args : Namespace :=
  {| args_count := 500;
     args_file := "House_price/GiaChungCu_HCM_June2021_laydulieu_com.csv" |}.

(** Lines 155-159: the call; on an exception the line [Error: e] is printed
    and the exception raised again.  The third component lists the
    exceptions so reported, printed after everything in [stdout]. *)
Definition main (args : Namespace) (w : world) : outcome * world * list exn :=
  match append_synthetic_rows (args_file args) (args_count args) w with
  | (Raised e, w') => (Raised e, w', [e])
  | (Returned _, w') => (Returned PyNone, w', [])
  end.

(** A world whose file starts with an empty line. *)
Definition blank_first_line_world : world :=
  World {[ "data.csv" := String LF "x,y" ]} sample_rng [].

(** * Properties *)

(** ** The reader never raises on the lines of a text file *)

Lemma lines_of_ok_bounded (n : nat) :
  forall s, (String.length s <= n)%nat -> Forall (fun l => line_ok l = true) (lines_of s).
Proof.
  induction n as [|n IH]; intros s Hlen.
  - destruct s; [constructor | simpl in Hlen; lia].
  - destruct s as [|c rest]; [constructor|].
    simpl in Hlen. simpl lines_of.
    destruct (Ascii.eqb c LF) eqn:Hlf.
    + constructor; [simpl; now rewrite Hlf | apply IH; lia].
    + destruct (Ascii.eqb c CR) eqn:Hcr.
      * destruct rest as [|c' rest'].
        { constructor; [simpl; now rewrite Hlf, Hcr | constructor]. }
        destruct (Ascii.eqb c' LF) eqn:Hlf'.
        { apply Ascii.eqb_eq in Hlf'. subst c'.
          constructor; [simpl; now rewrite Hlf, Hcr | apply IH; simpl in Hlen; lia]. }
        { constructor; [simpl; now rewrite Hlf, Hcr | apply IH; lia]. }
      * assert (Hrest : Forall (fun l => line_ok l = true) (lines_of rest))
          by (apply IH; lia).
        destruct (lines_of rest) as [|l ls].
        { constructor; [simpl; now rewrite Hlf, Hcr | constructor]. }
        { inversion Hrest; subst.
          constructor; [simpl; now rewrite Hlf, Hcr | assumption]. }
Qed.

Lemma lines_of_ok (s : string) : Forall (fun l => line_ok l = true) (lines_of s).
Proof. apply (lines_of_ok_bounded (String.length s)). lia. Qed.

Lemma step_plain (p : parser) (c : ascii) :
  is_newline c = false -> state p <> EAT_CRNL ->
  exists p', parse_process_char p (Some c) = Some p' /\ state p' <> EAT_CRNL.
Proof.
  intros Hc Hst. destruct p as [st fs f]. simpl in Hst.
  unfold parse_process_char, start_field; simpl.
  destruct st; try congruence; rewrite ?Hc;
    repeat match goal with
           | |- context [if ?b then _ else _] => destruct b
           end;
    eexists; (split; [reflexivity | simpl; congruence]).
Qed.

Lemma step_newline (p : parser) (c : ascii) :
  is_newline c = true -> exists p', parse_process_char p (Some c) = Some p'.
Proof.
  intros Hc. destruct p as [st fs f].
  unfold parse_process_char, start_field; simpl.
  destruct st; rewrite ?Hc;
    repeat match goal with
           | |- context [if ?b then _ else _] => destruct b
           end;
    eexists; reflexivity.
Qed.

Lemma step_eol (p : parser) :
  exists p', parse_process_char p None = Some p' /\
             (state p' = START_RECORD \/ state p' = IN_QUOTED_FIELD).
Proof.
  destruct p as [st fs f]. unfold parse_process_char; simpl.
  destruct st; eexists; (split; [reflexivity | simpl; auto]).
Qed.

Lemma process_line_ok (line : string) :
  forall p, line_ok line = true -> state p <> EAT_CRNL ->
            exists p', process_line p line = Some p'.
Proof.
  induction line as [|c rest IH]; intros p Hok Hst; simpl.
  - eauto.
  - simpl in Hok.
    destruct (Ascii.eqb c LF) eqn:Hlf.
    { apply String.eqb_eq in Hok. subst rest.
      destruct (step_newline p c) as [p' ->]; [unfold is_newline; now rewrite Hlf|].
      simpl. eauto. }
    destruct (Ascii.eqb c CR) eqn:Hcr.
    { destruct (step_newline p c) as [p' ->]; [unfold is_newline; now rewrite Hlf, Hcr|].
      apply orb_true_iff in Hok. destruct Hok as [Hok|Hok]; apply String.eqb_eq in Hok;
        subst rest; simpl; [eauto|].
      destruct (step_newline p' LF) as [p'' ->]; [reflexivity | eauto]. }
    destruct (step_plain p c) as [p' [-> Hst']];
      [unfold is_newline; now rewrite Hlf, Hcr | assumption |].
    now apply IH.
Qed.

Lemma reader_loop_no_error (lines : list string) :
  forall p, Forall (fun l => line_ok l = true) lines ->
            state p <> EAT_CRNL ->
            reader_loop p lines <> csv_Error.
Proof.
  induction lines as [|line lines IH]; intros p Hall Hst; simpl.
  - destruct (_ || _); discriminate.
  - inversion Hall as [|? ? Hline Hrest]; subst.
    destruct (process_line_ok line p Hline Hst) as [p1 ->].
    destruct (step_eol p1) as [p2 [-> Hst2]].
    destruct (state_eqb (state p2) START_RECORD); [discriminate|].
    apply IH; [assumption|]. destruct Hst2 as [-> | ->]; discriminate.
Qed.

Lemma reader_next_no_error (text : string) : reader_next text <> csv_Error.
Proof.
  unfold reader_next. apply reader_loop_no_error; [apply lines_of_ok | discriminate].
Qed.

(** Reading the header of a text file always yields a non-empty header. *)
Lemma read_existing_header_total (text : string) :
  exists h, read_existing_header text = Some h /\ h <> [].
Proof.
  unfold read_existing_header.
  pose proof (reader_next_no_error text) as Hne.
  destruct (reader_next text) as [[|f fs]| |]; try congruence;
    eexists; (split; [reflexivity | discriminate]).
Qed.

(** ** Facts about the Python primitives *)

Lemma to_int_not_nil (z : Z) :
  Z.to_int z <> Decimal.Pos Decimal.Nil /\ Z.to_int z <> Decimal.Neg Decimal.Nil.
Proof.
  destruct z as [|q|q]; simpl; split; try discriminate;
    intros H; injection H as H; now apply DecimalPos.Unsigned.to_uint_nonnil in H.
Qed.

(** [int(str(n)) == n]. *)
Lemma int_of_str_str (z : Z) : int_of_str (str z) = Some z.
Proof.
  unfold int_of_str, str.
  destruct (to_int_not_nil z) as [Hp Hn].
  rewrite NilZero.isi by assumption. simpl. now rewrite DecimalZ.of_to.
Qed.

Lemma str_not_empty (z : Z) : str z <> EmptyString.
Proof.
  intros H. pose proof (int_of_str_str z) as Hz. rewrite H in Hz. discriminate.
Qed.

Lemma py_min_spec (a b : Q) :
  (py_min a b <= a)%Q /\ (py_min a b <= b)%Q /\ (py_min a b == a \/ py_min a b == b)%Q.
Proof.
  unfold py_min. destruct (Qlt_le_dec b a) as [H|H]; repeat split;
    try apply Qle_refl; try (now apply Qlt_le_weak); try assumption;
    [right | left]; reflexivity.
Qed.

Lemma py_max_spec (a b : Q) :
  (a <= py_max a b)%Q /\ (b <= py_max a b)%Q /\ (py_max a b == a \/ py_max a b == b)%Q.
Proof.
  unfold py_max. destruct (Qlt_le_dec a b) as [H|H]; repeat split;
    try apply Qle_refl; try (now apply Qlt_le_weak); try assumption;
    [right | left]; reflexivity.
Qed.

(** The clamp of line 66 lands in the closed interval. *)
Lemma clamp_bounds (lo hi : Z) (g : Q) :
  lo <= hi ->
  (inject_Z lo <= py_max (inject_Z lo) (py_min (inject_Z hi) g) <= inject_Z hi)%Q.
Proof.
  intros Hle.
  destruct (py_max_spec (inject_Z lo) (py_min (inject_Z hi) g)) as (H1 & H2 & [H3|H3]).
  - split; [assumption|]. rewrite H3. rewrite <- Zle_Qle. assumption.
  - split; [assumption|]. rewrite H3. apply py_min_spec.
Qed.

(** On a non-negative value truncation is the floor. *)
Lemma int_of_float_floor (x : Q) : (0 <= x)%Q -> int_of_float x = Qfloor x.
Proof.
  destruct x as [n d]. unfold Qle, int_of_float, Qfloor; simpl. intros H.
  apply Z.quot_div_nonneg; lia.
Qed.

Lemma int_of_float_bounds (lo hi : Z) (x : Q) :
  0 <= lo -> (inject_Z lo <= x <= inject_Z hi)%Q -> lo <= int_of_float x <= hi.
Proof.
  intros Hlo [H1 H2].
  assert (H0 : (0 <= x)%Q).
  { apply Qle_trans with (inject_Z lo); [|assumption].
    change 0%Q with (inject_Z 0). now rewrite <- Zle_Qle. }
  rewrite int_of_float_floor by assumption.
  split.
  - rewrite <- (Qfloor_Z lo). now apply Qfloor_resp_le.
  - rewrite <- (Qfloor_Z hi). now apply Qfloor_resp_le.
Qed.

Lemma random_random_range (r : rng) :
  (0 <= fst (random.random r) < 1)%Q.
Proof.
  unfold random.random, gbind, gret, draw; simpl.
  set (q := tape r (pos r)).
  pose proof (Qfloor_le q) as H1. pose proof (Qlt_floor q) as H2.
  rewrite inject_Z_plus in H2. change (inject_Z 1) with 1%Q in H2.
  split; lra.
Qed.

Lemma randbelow_range (n : Z) (r : rng) :
  0 < n -> 0 <= fst (random.randbelow n r) < n.
Proof. intros Hn. unfold random.randbelow, gbind, gret; simpl. now apply Z.mod_pos_bound. Qed.

Lemma random_choice_In (seq : list string) (r : rng) :
  seq <> [] -> In (fst (random.choice seq r)) seq.
Proof.
  intros Hne. unfold random.choice, gbind, gret. cbn [fst snd].
  apply nth_In.
  assert (Hlen : 0 < Z.of_nat (length seq)) by (destruct seq; [congruence | simpl; lia]).
  pose proof (randbelow_range (Z.of_nat (length seq)) r Hlen) as Hi.
  apply Nat2Z.inj_lt. rewrite Z2Nat.id; lia.
Qed.

Lemma fake_random_element_In (elements : list string) (r : rng) :
  elements <> [] -> In (fst (fake.random_element elements r)) elements.
Proof. apply random_choice_In. Qed.

Lemma random_randint_range (a b : Z) (r : rng) :
  a <= b -> a <= fst (random.randint a b r) <= b.
Proof.
  intros Hab. unfold random.randint, gbind, gret. cbn [fst snd].
  pose proof (randbelow_range (b - a + 1) r ltac:(lia)). lia.
Qed.

Lemma random_uniform_range (a b : Q) (r : rng) :
  (a <= b)%Q -> (a <= fst (random.uniform a b r) <= b)%Q.
Proof.
  intros Hab. unfold random.uniform, gbind, gret. cbn [fst snd].
  pose proof (random_random_range r) as [H0 H1].
  set (u := fst (random.random r)) in *.
  split; nra.
Qed.

Lemma sometimes_empty_cases (value_func : Gen string) (empty_prob : Q) (r : rng) :
  fst (sometimes_empty value_func empty_prob r) = EmptyString \/
  fst (sometimes_empty value_func empty_prob r)
    = fst (value_func (snd (random.random r))).
Proof.
  unfold sometimes_empty, gbind.
  destruct (Qlt_le_dec _ _); [left | right]; reflexivity.
Qed.

(** *** Every generator computation only moves along the tape *)

Section KeepsTape.
Context {A B : Type}.
Implicit Types (m : Gen A) (f : A -> Gen B).

Lemma keeps_tape_gret (a : A) : keeps_tape (gret a).
Proof. intros r. simpl. auto. Qed.

Lemma keeps_tape_gbind m f :
  keeps_tape m -> (forall a, keeps_tape (f a)) -> keeps_tape (gbind m f).
Proof.
  intros Hm Hf r. unfold gbind.
  destruct (Hm r) as [H1 H2]. destruct (Hf (fst (m r)) (snd (m r))) as [H3 H4].
  split; [congruence | lia].
Qed.

Lemma keeps_tape_if (b : bool) (m1 m2 : Gen A) :
  keeps_tape m1 -> keeps_tape m2 -> keeps_tape (if b then m1 else m2).
Proof. now destruct b. Qed.

Lemma keeps_tape_if_dec {P Q : Prop} (b : {P} + {Q}) (m1 m2 : Gen A) :
  keeps_tape m1 -> keeps_tape m2 -> keeps_tape (if b then m1 else m2).
Proof. now destruct b. Qed.

(** A computation run later still reads the same tape, further on. *)
Lemma keeps_tape_after m (r r0 : rng) :
  keeps_tape m ->
  tape r0 = tape r /\ (pos r <= pos r0)%nat ->
  tape (snd (m r0)) = tape r /\ (pos r <= pos (snd (m r0)))%nat.
Proof.
  intros Hm [H1 H2]. destruct (Hm r0) as [H3 H4]. split; [congruence | lia].
Qed.

End KeepsTape.

Lemma keeps_tape_draw : keeps_tape draw.
Proof. intros r. simpl. auto. Qed.

Ltac tape_auto :=
  repeat first
    [ assumption
    | apply keeps_tape_gret
    | apply keeps_tape_draw
    | apply keeps_tape_gbind; [|intros ?]
    | apply keeps_tape_if_dec
    | apply keeps_tape_if
    | progress cbv beta zeta
    | progress unfold random.random, random.randbelow, random.choice, fake.random_element,
        random.gauss, random.uniform, random.randint, sometimes_empty, random_price ].

Lemma keeps_tape_random_random : keeps_tape random.random.
Proof. tape_auto. Qed.

Lemma keeps_tape_random_choice (seq : list string) : keeps_tape (random.choice seq).
Proof. tape_auto. Qed.

Lemma keeps_tape_fake_random_element (l : list string) :
  keeps_tape (fake.random_element l).
Proof. tape_auto. Qed.

Lemma keeps_tape_random_uniform (a b : Q) : keeps_tape (random.uniform a b).
Proof. tape_auto. Qed.

Lemma keeps_tape_random_price (a b : Z) : keeps_tape (random_price a b).
Proof. tape_auto. Qed.

Lemma keeps_tape_sometimes_empty (vf : Gen string) (q : Q) :
  keeps_tape vf -> keeps_tape (sometimes_empty vf q).
Proof. intros H. tape_auto. Qed.

Lemma keeps_tape_generate_row : keeps_tape generate_row.
Proof. unfold generate_row. tape_auto. Qed.

Lemma fst_gbind_gret {A B} (m : Gen A) (f : A -> B) (r : rng) :
  fst ((x <- m ;; gret (f x)) r) = f (fst (m r)).
Proof. reflexivity. Qed.

Ltac tape_chain :=
  repeat (apply keeps_tape_after; [solve [tape_auto] |]); split; [reflexivity | lia].

Ltac empty_or_value H :=
  match goal with
  | |- fst (sometimes_empty ?vf ?q ?r0) = _ \/ _ =>
      destruct (sometimes_empty_cases vf q r0) as [H|H]; rewrite H;
      [left; reflexivity | right]
  end.

(** ** The shape of a generated row *)

(** What each of the eleven fields of a row can be, in the order of the
    [return] statement. *)
Lemma generate_row_fields (r : rng) :
  exists prop_type need district price area direction rooms toilets legal : string,
    fst (generate_row r) =
      [ prop_type; need; CITY; district; price; area; direction; EmptyString;
        rooms; toilets; legal ]
    /\ In prop_type PROPERTY_TYPES
    /\ In need TRANSACTION_TYPES
    /\ In district DISTRICTS
    /\ (price = EmptyString \/
        exists r', (tape r' = tape r /\ (pos r <= pos r')%nat) /\
          price = str (fst (random_price (fst (price_range district))
                                         (snd (price_range district)) r')))
    /\ (area = EmptyString \/
        exists q, (inject_Z (fst (area_range district)) <= q
                   <= inject_Z (snd (area_range district)))%Q /\ area = format_1f q)
    /\ (direction = EmptyString \/ In direction DIRECTIONS)
    /\ (rooms = EmptyString \/ exists n, 1 <= n <= 4 /\ rooms = str n)
    /\ (toilets = EmptyString \/ exists n, 1 <= n <= 3 /\ toilets = str n)
    /\ (legal = EmptyString \/ In legal LEGAL_PAPERS).
Proof.
  do 9 eexists. split; [reflexivity|].
  split; [apply random_choice_In; discriminate|].
  split.
  { destruct (Qlt_le_dec _ _); [simpl; auto | apply random_choice_In; discriminate]. }
  split; [apply fake_random_element_In; discriminate|].
  split.
  { empty_or_value H. eexists. split; [|apply fst_gbind_gret]. tape_chain. }
  split.
  { empty_or_value H. eexists. split; [|reflexivity].
    apply random_uniform_range. rewrite <- Zle_Qle.
    unfold area_range. repeat destruct (py_in _ _); simpl; lia. }
  split; [empty_or_value H; apply fake_random_element_In; discriminate|].
  split.
  { empty_or_value H. eexists. split; [|apply fst_gbind_gret]. apply random_randint_range. lia. }
  split.
  { empty_or_value H. eexists. split; [|apply fst_gbind_gret]. apply random_randint_range. lia. }
  empty_or_value H. apply fake_random_element_In. discriminate.
Qed.

Lemma price_range_cases (district : string) :
  price_range district = (3500, 8000) \/ price_range district = (2000, 6000) \/
  price_range district = (1000, 4000).
Proof. unfold price_range. repeat destruct (py_in _ _); auto. Qed.

(** The integer [random_price] returns lies in the closed range. *)
Lemma random_price_bounds (price_min price_max : Z) (r : rng) :
  0 <= price_min <= price_max ->
  price_min <= fst (random_price price_min price_max r) <= price_max.
Proof.
  intros [H0 Hle]. unfold random_price, gbind, gret. cbn [fst snd].
  apply int_of_float_bounds; [assumption|]. now apply clamp_bounds.
Qed.

Example generate_row_sample :
  fst (generate_row sample_rng)
  = [ "Căn hộ, chung cư"; "Cần bán"; "Hồ Chí Minh"; "Quận 1"; "5750"; "57.5";
      "Nam"; EmptyString; "3"; "2"; "Đã có sổ" ].
Proof. vm_compute. reflexivity. Qed.

(** C6: every call of [generate_row] returns exactly eleven fields, each of
    them a string that is either empty or the formatted value of its column
    (a member of the column's constant list, a decimal integer, a one-digit
    decimal fraction), and the eighth field, the floor count, is always the
    empty string. *)
Theorem generate_row_eleven_fields (r : rng) :
  let row := fst (generate_row r) in
  length row = 11%nat /\
  row_floors row = EmptyString /\
  exists prop_type need province district price area direction floors rooms toilets legal,
    row = [ prop_type; need; province; district; price; area; direction; floors;
            rooms; toilets; legal ]
    /\ In prop_type PROPERTY_TYPES
    /\ In need TRANSACTION_TYPES
    /\ province = CITY
    /\ In district DISTRICTS
    /\ (price = EmptyString \/ exists n, price = str n)
    /\ (area = EmptyString \/ exists q, area = format_1f q)
    /\ (direction = EmptyString \/ In direction DIRECTIONS)
    /\ floors = EmptyString
    /\ (rooms = EmptyString \/ exists n, 1 <= n <= 4 /\ rooms = str n)
    /\ (toilets = EmptyString \/ exists n, 1 <= n <= 3 /\ toilets = str n)
    /\ (legal = EmptyString \/ In legal LEGAL_PAPERS).
Proof.
  intros row. subst row.
  destruct (generate_row_fields r)
    as (pt & need & d & price & area & dir & rooms & toilets & legal
        & Hrow & Hpt & Hneed & Hd & Hprice & Harea & Hdir & Hrooms & Htoilets & Hlegal).
  rewrite Hrow. split; [reflexivity|]. split; [reflexivity|].
  exists pt, need, CITY, d, price, area, dir, EmptyString, rooms, toilets, legal.
  repeat split; try assumption.
  - destruct Hprice as [?|(r' & _ & ?)]; [now left | right; eauto].
  - destruct Harea as [?|(q & _ & ?)]; [now left | right; eauto].
Qed.

(** C4: whenever the price field of a generated row is not empty it parses
    as an integer between the price_min and price_max of the row's district
    tier; for district Quận 1 these bounds are 3500 and 8000. *)
Theorem price_within_tier_range (r : rng) :
  let row := fst (generate_row r) in
  row_price row <> EmptyString ->
  exists k, int_of_str (row_price row) = Some k /\
    fst (price_range (row_district row)) <= k <= snd (price_range (row_district row)) /\
    (row_district row = "Quận 1" -> 3500 <= k <= 8000).
Proof.
  intros row Hne. subst row.
  destruct (generate_row_fields r)
    as (pt & need & d & price & area & dir & rooms & toilets & legal
        & Hrow & _ & _ & _ & Hprice & _).
  rewrite Hrow in *. unfold row_price, row_district in *. cbn [nth] in *.
  destruct Hprice as [He|(r' & _ & He)]; [congruence|].
  eexists. split; [rewrite He; apply int_of_str_str|].
  assert (Hb : fst (price_range d)
               <= fst (random_price (fst (price_range d)) (snd (price_range d)) r')
               <= snd (price_range d)).
  { apply random_price_bounds.
    destruct (price_range_cases d) as [-> | [-> | ->]]; simpl; lia. }
  split; [exact Hb|].
  intros ->. exact Hb.
Qed.

Lemma price_within_tier_range_witness :
  exists k, int_of_str (row_price (fst (generate_row sample_rng))) = Some k /\
    fst (price_range (row_district (fst (generate_row sample_rng)))) <= k
      <= snd (price_range (row_district (fst (generate_row sample_rng)))) /\
    (row_district (fst (generate_row sample_rng)) = "Quận 1" -> 3500 <= k <= 8000).
Proof.
  apply (price_within_tier_range sample_rng). vm_compute. discriminate.
Defined.





(** ** District tiers *)

Lemma py_in_In (x : string) (l : list string) : py_in x l = true <-> In x l.
Proof.
  unfold py_in. rewrite existsb_exists. split.
  - intros (y & Hy & Heq). apply String.eqb_eq in Heq. now subst.
  - intros H. exists x. split; [assumption | apply String.eqb_refl].
Qed.

(** C7: every district the generator can draw is in exactly one of the three
    tier lists; no string at all is in two of them; the tier decides the
    price and area ranges, and a district that is in neither the high nor the
    medium list gets the ranges of the low band. *)
Theorem district_resolves_to_one_tier :
  (forall d, In d DISTRICTS -> exists t, tiers_of d = [t]) /\
  (forall d, (length (tiers_of d) <= 1)%nat) /\
  (forall d, tiers_of d = ["cao"] ->
             price_range d = (3500, 8000) /\ area_range d = (25, 90)) /\
  (forall d, tiers_of d = ["trung"] ->
             price_range d = (2000, 6000) /\ area_range d = (40, 120)) /\
  (forall d, tiers_of d = ["thap"] ->
             price_range d = (1000, 4000) /\ area_range d = (50, 150)) /\
  (forall d, py_in d (dict_get DISTRICT_PRICE_RANGE "cao") = false ->
             py_in d (dict_get DISTRICT_PRICE_RANGE "trung") = false ->
             price_range d = (1000, 4000) /\ area_range d = (50, 150)).
Proof.
  assert (Hdisj : forall d,
    (py_in d (dict_get DISTRICT_PRICE_RANGE "cao") = true ->
       py_in d (dict_get DISTRICT_PRICE_RANGE "trung") = false /\
       py_in d (dict_get DISTRICT_PRICE_RANGE "thap") = false) /\
    (py_in d (dict_get DISTRICT_PRICE_RANGE "trung") = true ->
       py_in d (dict_get DISTRICT_PRICE_RANGE "thap") = false)).
  { intros d. split; intros H; apply py_in_In in H; simpl in H;
      repeat (destruct H as [<-|H]; [vm_compute; auto|]); contradiction. }
  assert (Htiers : forall d, tiers_of d =
    ((if py_in d (dict_get DISTRICT_PRICE_RANGE "cao") then ["cao"] else []) ++
     (if py_in d (dict_get DISTRICT_PRICE_RANGE "trung") then ["trung"] else []) ++
     (if py_in d (dict_get DISTRICT_PRICE_RANGE "thap") then ["thap"] else []))%list).
  { intros d. unfold tiers_of, DISTRICT_PRICE_RANGE.
    cbn [List.filter snd dict_get String.eqb Ascii.eqb Bool.eqb].
    repeat match goal with |- context [py_in d ?l] => destruct (py_in d l) end;
      reflexivity. }
  repeat split.
  - intros d Hd. simpl in Hd.
    repeat (destruct Hd as [<-|Hd]; [eexists; vm_compute; reflexivity|]). contradiction.
  - intros d. rewrite Htiers. destruct (Hdisj d) as [H1 H2].
    destruct (py_in d (dict_get DISTRICT_PRICE_RANGE "cao")).
    + destruct H1 as [-> ->]; [reflexivity | simpl; lia].
    + destruct (py_in d (dict_get DISTRICT_PRICE_RANGE "trung")).
      * rewrite H2 by reflexivity. simpl; lia.
      * destruct (py_in d _); simpl; lia.
  - revert H. rewrite Htiers. unfold price_range.
    repeat destruct (py_in d _); simpl; congruence.
  - revert H. rewrite Htiers. unfold area_range.
    repeat destruct (py_in d _); simpl; congruence.
  - revert H. rewrite Htiers. unfold price_range.
    repeat destruct (py_in d _); simpl; congruence.
  - revert H. rewrite Htiers. unfold area_range.
    repeat destruct (py_in d _); simpl; congruence.
  - revert H. rewrite Htiers. unfold price_range. destruct (Hdisj d) as [H1 H2].
    destruct (py_in d (dict_get DISTRICT_PRICE_RANGE "cao"));
      [destruct H1 as [-> ->]; [reflexivity | simpl; congruence]|].
    destruct (py_in d (dict_get DISTRICT_PRICE_RANGE "trung"));
      [rewrite H2 by reflexivity; simpl; congruence | reflexivity].
  - revert H. rewrite Htiers. unfold area_range. destruct (Hdisj d) as [H1 H2].
    destruct (py_in d (dict_get DISTRICT_PRICE_RANGE "cao"));
      [destruct H1 as [-> ->]; [reflexivity | simpl; congruence]|].
    destruct (py_in d (dict_get DISTRICT_PRICE_RANGE "trung"));
      [rewrite H2 by reflexivity; simpl; congruence | reflexivity].
  - unfold price_range. now rewrite H, H0.
  - unfold area_range. now rewrite H, H0.
Qed.

(** ** The generation loop *)

Lemma new_rows_length (n : nat) : forall r, length (fst (new_rows n r)) = n.
Proof.
  induction n as [|n IH]; intros r; [reflexivity|].
  cbn [new_rows]. unfold gbind, gret. cbn [fst snd length]. now rewrite IH.
Qed.






(** ** Alignment *)

Lemma align_row_length (n : nat) (r : list string) : length (align_row n r) = n.
Proof.
  unfold align_row.
  destruct (Nat.ltb_spec (length r) n) as [H|H].
  - rewrite length_app, repeat_length. lia.
  - destruct (Nat.ltb_spec n (length r)) as [H'|H'].
    + rewrite length_firstn. lia.
    + lia.
Qed.

(** C3: a row shorter than the header is padded on the right with empty
    strings, a longer one keeps its first n fields, one of the same length
    is unchanged; the result always has n fields, and the field at each
    position is the field the row had at that position (empty where it had
    none): alignment is by position only. *)
Theorem align_row_pads_or_truncates (r : list string) (n : nat) :
  ((length r < n)%nat -> align_row n r = (r ++ repeat EmptyString (n - length r))%list) /\
  ((length r > n)%nat -> align_row n r = firstn n r) /\
  (length r = n -> align_row n r = r) /\
  length (align_row n r) = n /\
  (forall i, (i < n)%nat -> nth i (align_row n r) EmptyString = nth i r EmptyString).
Proof.
  split; [|split; [|split; [|split]]].
  - intros H. unfold align_row. apply Nat.ltb_lt in H. now rewrite H.
  - intros H. unfold align_row.
    destruct (Nat.ltb_spec (length r) n); [lia|].
    destruct (Nat.ltb_spec n (length r)); [reflexivity | lia].
  - intros H. unfold align_row.
    destruct (Nat.ltb_spec (length r) n); [lia|].
    destruct (Nat.ltb_spec n (length r)); [lia | reflexivity].
  - apply align_row_length.
  - intros i Hi. unfold align_row.
    destruct (Nat.ltb_spec (length r) n) as [H|H].
    + destruct (Nat.lt_ge_cases i (length r)) as [Hlt|Hge].
      * now rewrite app_nth1.
      * rewrite app_nth2 by assumption. rewrite nth_repeat.
        symmetry. now apply nth_overflow.
    + destruct (Nat.ltb_spec n (length r)) as [H'|H']; [|reflexivity].
      rewrite nth_firstn. apply Nat.ltb_lt in Hi. now rewrite Hi.
Qed.

(** ** The appender *)

Lemma append_cons (c : ascii) (s t : string) :
  String c s +:+ t = String c (s +:+ t).
Proof. reflexivity. Qed.

Lemma append_nil_r (s : string) : s +:+ EmptyString = s.
Proof.
  induction s as [|c s IH]; [reflexivity|]. now rewrite append_cons, IH.
Qed.

Lemma prefix_append (s t : string) : String.prefix s (s +:+ t) = true.
Proof.
  induction s as [|c s IH]; [change (EmptyString +:+ t) with t; now destruct t|].
  rewrite append_cons. cbn [String.prefix].
  destruct (ascii_dec c c); [assumption | congruence].
Qed.

(** What a call does on a path that exists, given the header read. *)
Lemma append_synthetic_rows_existing
    (w : world) (path text : string) (count : Z) (h : list string) :
  files w !! path = Some text ->
  read_existing_header text = Some h ->
  append_synthetic_rows path count w =
    (Returned PyNone,
     World (<[path := text +:+ writerows (map (align_row (length h))
                                  (fst (new_rows (range_len count) (random_state w))))]>
              (files w))
           (snd (new_rows (range_len count) (random_state w)))
           (stdout w ++ header_warning h ++
              [Appended (length (map (align_row (length h))
                                     (fst (new_rows (range_len count) (random_state w)))))
                        path])%list).
Proof.
  intros Hf Hh. unfold append_synthetic_rows, path_exists.
  rewrite Hf. cbn [negb]. rewrite Hh. reflexivity.
Qed.

(** C2: on a path that does not exist the call raises the file-not-found
    error at once: the world it leaves is the world it found, so no row was
    generated, nothing was printed, no file was created or changed, and the
    path still does not exist. *)
Theorem append_missing_file_fails_first (w : world) (path : string) (count : Z) :
  files w !! path = None ->
  append_synthetic_rows path count w = (Raised (FileNotFoundError path), w) /\
  files (snd (append_synthetic_rows path count w)) !! path = None /\
  files (snd (append_synthetic_rows path count w)) = files w /\
  random_state (snd (append_synthetic_rows path count w)) = random_state w /\
  stdout (snd (append_synthetic_rows path count w)) = stdout w.
Proof.
  intros Hf.
  assert (H : append_synthetic_rows path count w = (Raised (FileNotFoundError path), w)).
  { unfold append_synthetic_rows, path_exists. now rewrite Hf. }
  rewrite H. cbn [snd]. auto.
Qed.

Lemma append_missing_file_fails_first_witness :
  append_synthetic_rows "missing.csv" 5 sample_world
    = (Raised (FileNotFoundError "missing.csv"), sample_world) /\
  files (snd (append_synthetic_rows "missing.csv" 5 sample_world)) !! "missing.csv" = None /\
  files (snd (append_synthetic_rows "missing.csv" 5 sample_world)) = files sample_world /\
  random_state (snd (append_synthetic_rows "missing.csv" 5 sample_world))
    = random_state sample_world /\
  stdout (snd (append_synthetic_rows "missing.csv" 5 sample_world)) = stdout sample_world.
Proof.
  apply (append_missing_file_fails_first sample_world "missing.csv" 5).
  vm_compute. reflexivity.
Defined.




(** *** Lines of a file that grew *)

Lemma append_assoc (s t u : string) : (s +:+ t) +:+ u = s +:+ (t +:+ u).
Proof.
  induction s as [|c s IH]; [reflexivity|]. now rewrite !append_cons, IH.
Qed.

Lemma lines_of_not_nil (s : string) : s <> EmptyString -> lines_of s <> [].
Proof.
  destruct s as [|c rest]; [congruence|]. intros _. cbn [lines_of].
  destruct (Ascii.eqb c LF); [discriminate|].
  destruct (Ascii.eqb c CR).
  - destruct rest as [|c' rest']; [discriminate|].
    destruct (Ascii.eqb c' LF); discriminate.
  - destruct (lines_of rest); discriminate.
Qed.

(** Text put after a line feed starts on a line of its own. *)
Lemma lines_of_app_bounded (n : nat) :
  forall s t, (String.length s <= n)%nat ->
    lines_of (s +:+ String LF t)
    = (lines_of (s +:+ String LF EmptyString) ++ lines_of t)%list.
Proof.
  induction n as [|n IH]; intros s t Hlen.
  - destruct s; [|simpl in Hlen; lia]. reflexivity.
  - destruct s as [|c s]; [reflexivity|].
    cbn [String.length] in Hlen. rewrite !append_cons. cbn [lines_of].
    destruct (Ascii.eqb c LF).
    { rewrite IH by lia. reflexivity. }
    destruct (Ascii.eqb c CR).
    { destruct s as [|c' s'].
      - change (EmptyString +:+ String LF t) with (String LF t).
        change (EmptyString +:+ String LF EmptyString) with (String LF EmptyString).
        cbv beta iota. rewrite Ascii.eqb_refl. reflexivity.
      - rewrite !append_cons. cbn [String.length] in Hlen. cbv beta iota.
        destruct (Ascii.eqb c' LF).
        + rewrite IH by lia. reflexivity.
        + rewrite <- !append_cons. rewrite IH by (cbn [String.length]; lia).
          reflexivity. }
    rewrite IH by lia.
    pose proof (lines_of_not_nil (s +:+ String LF EmptyString)) as Hne.
    destruct (lines_of (s +:+ String LF EmptyString)) as [|l ls].
    + exfalso. apply Hne; [|reflexivity]. destruct s; discriminate.
    + reflexivity.
Qed.

Lemma lines_of_after_newline (text appended : string) :
  text = EmptyString \/ (exists body, text = body +:+ String LF EmptyString) ->
  lines_of (text +:+ appended) = (lines_of text ++ lines_of appended)%list.
Proof.
  intros [-> | [body ->]]; [reflexivity|].
  rewrite append_assoc. change (String LF EmptyString +:+ appended) with (String LF appended).
  apply (lines_of_app_bounded (String.length body)). lia.
Qed.

(** C9: a call that ends normally on an existing file leaves the old
    content as a prefix of the new one, followed by the text of the rows
    written; when the old content is empty or ends with a line feed, the
    lines of the new file are the old lines, unchanged, followed by the new
    ones; no other file is touched. *)
Theorem append_keeps_existing_content
    (w w' : world) (path text : string) (count : Z) (v : py_value) :
  files w !! path = Some text ->
  append_synthetic_rows path count w = (Returned v, w') ->
  exists rows : list (list string),
    files w' !! path = Some (text +:+ writerows rows) /\
    String.prefix text (text +:+ writerows rows) = true /\
    (text = EmptyString \/ (exists body, text = body +:+ String LF EmptyString) ->
     lines_of (text +:+ writerows rows)
     = (lines_of text ++ lines_of (writerows rows))%list) /\
    (forall other, other <> path -> files w' !! other = files w !! other).
Proof.
  intros Hf Hrun.
  destruct (read_existing_header_total text) as (h & Hh & _).
  rewrite (append_synthetic_rows_existing w path text count h Hf Hh) in Hrun.
  injection Hrun as _ Hw. subst w'. cbn [files].
  eexists. split; [apply lookup_insert_eq|].
  split; [apply prefix_append|].
  split; [apply lines_of_after_newline|].
  intros other Hne. now apply lookup_insert_ne.
Qed.

Lemma append_keeps_existing_content_witness :
  exists rows : list (list string),
    files (snd (append_synthetic_rows "data.csv" 2 sample_world)) !! "data.csv"
      = Some (sample_text +:+ writerows rows) /\
    String.prefix sample_text (sample_text +:+ writerows rows) = true.
Proof.
  destruct (append_keeps_existing_content sample_world
              (snd (append_synthetic_rows "data.csv" 2 sample_world))
              "data.csv" sample_text 2 PyNone) as (rows & H1 & H2 & _).
  - vm_compute. reflexivity.
  - vm_compute. reflexivity.
  - exists rows. auto.
Defined.





(** ** The sample file, run *)

(** Two rows appended to the three-column sample file: each row is cut to
    its first three fields, the first of which holds a comma and is
    quoted; the header stays where it was. *)
Example append_sample_file :
  files (snd (append_synthetic_rows "data.csv" 2 sample_world)) !! "data.csv"
  = Some ("a,b,c" +:+ LINETERMINATOR
          +:+ quoted "Căn hộ, chung cư" +:+ ",Cần bán,Hồ Chí Minh" +:+ LINETERMINATOR
          +:+ quoted "Căn hộ, chung cư" +:+ ",Cần bán,Hồ Chí Minh" +:+ LINETERMINATOR).
Proof. vm_compute. reflexivity. Qed.

(** Ten rows appended to a file that holds the eleven-column header only:
    eleven lines, the first of which still reads back as the header. *)
Example append_to_header_only_file :
  let w := World {[ "data.csv" := writerow HEADER ]} sample_rng [] in
  let w' := snd (append_synthetic_rows "data.csv" 10 w) in
  option_map (fun text => length (lines_of text)) (files w' !! "data.csv") = Some 11%nat /\
  option_map reader_next (files w' !! "data.csv") = Some (Record_ HEADER) /\
  stdout w' = [Appended 10 "data.csv"].
Proof. vm_compute. repeat split; reflexivity. Qed.

(** An empty file: the generator's header is taken, nothing is warned
    about, and the rows keep their eleven fields. *)
Example append_to_empty_file :
  let w := World {[ "data.csv" := EmptyString ]} sample_rng [] in
  let w' := snd (append_synthetic_rows "data.csv" 1 w) in
  read_existing_header EmptyString = Some HEADER /\
  stdout w' = [Appended 1 "data.csv"] /\
  files w' !! "data.csv" = Some (writerow (fst (generate_row sample_rng))).
Proof. vm_compute. repeat split; reflexivity. Qed.

(** A file whose header has eight columns: the lengths are reported, and
    every line of the file, old and new, reads back as eight fields. *)
Example append_to_eight_columns :
  let w := World {[ "data.csv" := writerow (firstn 8 HEADER) ]} sample_rng [] in
  let w' := snd (append_synthetic_rows "data.csv" 3 w) in
  option_map (fun text => map reader_next (lines_of text)) (files w' !! "data.csv")
  = Some [ Record_ (firstn 8 HEADER);
           Record_ (firstn 8 (fst (generate_row sample_rng)));
           Record_ (firstn 8 (fst (generate_row (next_state sample_rng))));
           Record_ (firstn 8 (fst (generate_row (next_state (next_state sample_rng))))) ] /\
  stdout w' = [ Warning_header_length;
                Existing_header 8 (firstn 8 HEADER);
                Generator_header 11 HEADER;
                Appended 3 "data.csv" ].
Proof. vm_compute. repeat split; reflexivity. Qed.

(** * Further properties of the script *)

(** ** The reader on text the writer produced *)

Lemma is_newline_false (c : ascii) :
  is_newline c = false -> Ascii.eqb c LF = false /\ Ascii.eqb c CR = false.
Proof. unfold is_newline. intros H. now apply orb_false_iff in H. Qed.

(** One plain character moves the reader on, whatever line it is in. *)
Lemma reader_loop_plain (c : ascii) (rest : string) (p p' : parser) :
  is_newline c = false -> rest <> EmptyString ->
  parse_process_char p (Some c) = Some p' ->
  reader_loop p (lines_of (String c rest)) = reader_loop p' (lines_of rest).
Proof.
  intros Hc Hrest Hstep. destruct (is_newline_false c Hc) as [Hlf Hcr].
  cbn [lines_of]. rewrite Hlf, Hcr.
  pose proof (lines_of_not_nil rest Hrest) as Hne.
  destruct (lines_of rest) as [|l ls]; [congruence|].
  cbn [reader_loop process_line]. now rewrite Hstep.
Qed.

(** Inside a quoted field a line break is a character like any other. *)
Lemma reader_loop_quoted_newline (c : ascii) (rest : string) (fs : list string) (f : string) :
  is_newline c = true ->
  reader_loop (Parser IN_QUOTED_FIELD fs f) (lines_of (String c rest))
  = reader_loop (Parser IN_QUOTED_FIELD fs (f +:+ String c EmptyString)) (lines_of rest).
Proof.
  intros Hc. unfold is_newline in Hc. apply orb_true_iff in Hc.
  destruct Hc as [Hc|Hc]; apply Ascii.eqb_eq in Hc; subst c.
  - reflexivity.
  - destruct rest as [|c' rest']; [reflexivity|].
    cbn [lines_of]. change (Ascii.eqb CR LF) with false. change (Ascii.eqb CR CR) with true.
    cbv beta iota.
    destruct (Ascii.eqb c' LF) eqn:Hlf.
    + apply Ascii.eqb_eq in Hlf. subst c'. reflexivity.
    + cbn [reader_loop process_line parse_process_char state]. 
      change (Ascii.eqb CR QUOTECHAR) with false. cbv beta iota.
      reflexivity.
Qed.

Lemma process_record_reader (t : string) :
  forall (p q : parser) (nl rest : string),
    nl = String LF EmptyString \/ nl = LINETERMINATOR ->
    process_record p t = Some q ->
    state q <> IN_QUOTED_FIELD -> state q <> EAT_CRNL ->
    reader_loop p (lines_of (t +:+ nl +:+ rest)) = Record_ (fields_at_break q).
Proof.
  induction t as [|c t IH]; intros p q nl rest Hnl Hrun Hq1 Hq2.
  - cbn [process_record] in Hrun. injection Hrun as ->.
    change (EmptyString +:+ nl +:+ rest) with (nl +:+ rest).
    destruct q as [st fs f]. cbn [state] in Hq1, Hq2.
    destruct Hnl as [-> | ->]; destruct st; try congruence; reflexivity.
  - cbn [process_record] in Hrun. rewrite append_cons.
    destruct (is_newline c) eqn:Hc.
    + destruct p as [st fs f]. cbn [state] in Hrun.
      destruct st; cbn [state_eqb negb andb] in Hrun; try discriminate.
      rewrite reader_loop_quoted_newline by assumption.
      cbn [parse_process_char state] in Hrun.
      assert (Hq : Ascii.eqb c QUOTECHAR = false).
      { unfold is_newline in Hc. apply orb_true_iff in Hc.
        destruct Hc as [Hc|Hc]; apply Ascii.eqb_eq in Hc; subst c; reflexivity. }
      rewrite Hq in Hrun. now apply (IH _ q nl rest).
    + cbn [andb] in Hrun.
      destruct (parse_process_char p (Some c)) as [p'|] eqn:Hstep; [|discriminate].
      rewrite (reader_loop_plain c _ p p' Hc); [now apply (IH _ q nl rest)| |assumption].
      destruct t; destruct Hnl as [-> | ->]; discriminate.
Qed.

Lemma process_record_app (s t : string) :
  forall p, process_record p (s +:+ t)
            = match process_record p s with
              | Some q => process_record q t
              | None => None
              end.
Proof.
  induction s as [|c s IH]; intros p; [reflexivity|].
  rewrite append_cons. cbn [process_record].
  destruct (_ && _); [reflexivity|].
  destruct (parse_process_char p (Some c)); [apply IH | reflexivity].
Qed.

Lemma needs_quoting_false (c : ascii) :
  needs_quoting c = false ->
  Ascii.eqb c DELIMITER = false /\ Ascii.eqb c QUOTECHAR = false /\ is_newline c = false.
Proof.
  unfold needs_quoting, is_newline. intros H.
  repeat (apply orb_false_iff in H; destruct H as [H ?]).
  repeat split; try assumption. apply orb_false_iff. auto.
Qed.

(** A field written without quotes is read character by character. *)
Lemma process_record_unquoted (f : string) :
  forall (fs : list string) (g : string),
    string_exists needs_quoting f = false ->
    process_record (Parser IN_FIELD fs g) f = Some (Parser IN_FIELD fs (g +:+ f)).
Proof.
  induction f as [|c f IH]; intros fs g Hf.
  - now rewrite append_nil_r.
  - cbn [string_exists] in Hf. apply orb_false_iff in Hf. destruct Hf as [Hc Hf].
    destruct (needs_quoting_false c Hc) as (Hd & Hq & Hn).
    cbn [process_record parse_process_char state]. rewrite Hn, Hd. cbn [andb].
    unfold parse_add_char. cbn [fields field].
    rewrite IH by assumption. now rewrite append_assoc.
Qed.

(** The body of a quoted field, with its doubled quotes, is read back as
    the field. *)
Lemma process_record_quoted_body (f : string) :
  forall (fs : list string) (g : string),
    process_record (Parser IN_QUOTED_FIELD fs g) (join_append_data f)
    = Some (Parser IN_QUOTED_FIELD fs (g +:+ f)).
Proof.
  induction f as [|c f IH]; intros fs g.
  - now rewrite append_nil_r.
  - cbn [join_append_data].
    destruct (Ascii.eqb c QUOTECHAR) eqn:Hq.
    + apply Ascii.eqb_eq in Hq. subst c.
      cbn [process_record parse_process_char state state_eqb negb andb].
      rewrite andb_false_r. change (Ascii.eqb QUOTECHAR QUOTECHAR) with true.
      cbv beta iota. unfold set_state. cbn [process_record parse_process_char state fields field].
      change (is_newline QUOTECHAR) with false. cbn [andb].
      change (Ascii.eqb QUOTECHAR QUOTECHAR) with true. cbv beta iota.
      unfold parse_add_char. cbn [fields field].
      rewrite IH. now rewrite append_assoc.
    + cbn [process_record parse_process_char state state_eqb negb andb].
      rewrite andb_false_r, Hq. unfold parse_add_char. cbn [fields field].
      rewrite IH. now rewrite append_assoc.
Qed.

Lemma process_record_field (st : reader_state) (fs : list string) (f : string) :
  st = START_RECORD \/ st = START_FIELD ->
  process_record (Parser st fs EmptyString) (join_append f) = Some (after_field st fs f).
Proof.
  intros Hst. unfold join_append, after_field.
  destruct f as [|c f]; [reflexivity|].
  destruct (string_exists needs_quoting (String c f)) eqn:Hspecial.
  - rewrite append_cons. cbn [process_record state].
    change (is_newline QUOTECHAR) with false. cbn [andb].
    assert (Hopen : parse_process_char (Parser st fs EmptyString) (Some QUOTECHAR)
                    = Some (Parser IN_QUOTED_FIELD fs EmptyString))
      by (destruct Hst as [-> | ->]; reflexivity).
    rewrite Hopen, process_record_app, process_record_quoted_body.
    reflexivity.
  - cbn [string_exists] in Hspecial. apply orb_false_iff in Hspecial.
    destruct Hspecial as [Hc Hf].
    destruct (needs_quoting_false c Hc) as (Hd & Hq & Hn).
    cbn [process_record]. rewrite Hn. cbn [andb].
    assert (Hfirst : parse_process_char (Parser st fs EmptyString) (Some c)
                     = Some (Parser IN_FIELD fs (String c EmptyString))).
    { destruct Hst as [-> | ->]; unfold parse_process_char, start_field;
        cbn [state]; rewrite ?Hn, ?Hq, ?Hd; reflexivity. }
    rewrite Hfirst. now rewrite process_record_unquoted.
Qed.

(** A delimiter after a field saves it. *)
Lemma after_field_delimiter (st : reader_state) (fs : list string) (f : string) :
  st = START_RECORD \/ st = START_FIELD ->
  process_record (after_field st fs f) (String DELIMITER EmptyString)
  = Some (Parser START_FIELD (fs ++ [f])%list EmptyString).
Proof.
  intros Hst. unfold after_field.
  destruct f as [|c f]; [destruct Hst as [-> | ->]; reflexivity|].
  destruct (string_exists needs_quoting (String c f)); reflexivity.
Qed.

Lemma after_field_state (st : reader_state) (fs : list string) (f : string) :
  st = START_RECORD \/ st = START_FIELD ->
  state (after_field st fs f) <> IN_QUOTED_FIELD /\
  state (after_field st fs f) <> EAT_CRNL.
Proof.
  intros Hst. unfold after_field.
  destruct f as [|c f]; [destruct Hst as [-> | ->]; split; discriminate|].
  destruct (string_exists needs_quoting (String c f)); split; discriminate.
Qed.

Lemma after_field_fields (st : reader_state) (fs : list string) (f : string) :
  st = START_FIELD \/ (st = START_RECORD /\ f <> EmptyString) ->
  fields_at_break (after_field st fs f) = (fs ++ [f])%list.
Proof.
  intros Hst. unfold after_field, fields_at_break.
  destruct f as [|c f].
  - destruct Hst as [-> | [_ Hf]]; [reflexivity | congruence].
  - destruct (string_exists needs_quoting (String c f)); reflexivity.
Qed.

(** The fields of a row, joined by the writer, read from the start of a
    field. *)
Lemma process_record_join_fields (row : list string) :
  forall fs, row <> [] ->
    exists q, process_record (Parser START_FIELD fs EmptyString) (join_fields row) = Some q /\
              state q <> IN_QUOTED_FIELD /\ state q <> EAT_CRNL /\
              fields_at_break q = (fs ++ row)%list.
Proof.
  induction row as [|f row IH]; intros fs Hne; [congruence|].
  destruct row as [|f2 row].
  - cbn [join_fields]. exists (after_field START_FIELD fs f).
    rewrite process_record_field by auto.
    destruct (after_field_state START_FIELD fs f) as [H1 H2]; [auto|].
    repeat split; try assumption. apply after_field_fields. auto.
  - change (join_fields (f :: f2 :: row))
      with (join_append f +:+ String DELIMITER (join_fields (f2 :: row))).
    rewrite process_record_app, process_record_field by auto.
    change (String DELIMITER (join_fields (f2 :: row)))
      with (String DELIMITER EmptyString +:+ join_fields (f2 :: row)).
    rewrite process_record_app, after_field_delimiter by auto.
    destruct (IH (fs ++ [f])%list ltac:(discriminate)) as (q & Hq & H1 & H2 & H3).
    exists q. rewrite <- app_assoc in H3. auto.
Qed.

Lemma writerow_row_text (row : list string) :
  writerow row = row_text row +:+ LINETERMINATOR.
Proof. destruct row as [|[|c f] [|f2 row]]; reflexivity. Qed.

Lemma process_record_row_text (row : list string) :
  exists q, process_record parse_reset (row_text row) = Some q /\
            state q <> IN_QUOTED_FIELD /\ state q <> EAT_CRNL /\
            fields_at_break q = row.
Proof.
  destruct row as [|f row].
  - exists parse_reset. repeat split; discriminate.
  - destruct row as [|f2 row].
    + destruct f as [|c f].
      * eexists. split; [reflexivity|]. repeat split; discriminate.
      * unfold row_text, parse_reset. cbn [join_fields].
        exists (after_field START_RECORD [] (String c f)).
        rewrite process_record_field by auto.
        destruct (after_field_state START_RECORD [] (String c f)) as [H1 H2]; [auto|].
        repeat split; try assumption.
        apply (after_field_fields START_RECORD []). right. split; [reflexivity | discriminate].
    + replace (row_text (f :: f2 :: row)) with (join_fields (f :: f2 :: row))
        by (destruct f; reflexivity).
      unfold parse_reset.
      change (join_fields (f :: f2 :: row))
        with (join_append f +:+ String DELIMITER (join_fields (f2 :: row))).
      rewrite process_record_app, process_record_field by auto.
      change (String DELIMITER (join_fields (f2 :: row)))
        with (String DELIMITER EmptyString +:+ join_fields (f2 :: row)).
      rewrite process_record_app, after_field_delimiter by auto.
      destruct (process_record_join_fields (f2 :: row) ([] ++ [f])%list ltac:(discriminate))
        as (q & Hq & H1 & H2 & H3).
      exists q. auto.
Qed.

(** The first record of any text that begins with a written row is that
    row. *)
Lemma reader_next_writerow_app (row : list string) (rest : string) :
  reader_next (writerow row +:+ rest) = Record_ row.
Proof.
  destruct (process_record_row_text row) as (q & Hq & H1 & H2 & H3).
  rewrite writerow_row_text, append_assoc. unfold reader_next.
  rewrite (process_record_reader (row_text row) parse_reset q LINETERMINATOR rest);
    auto. now rewrite H3.
Qed.

(** ** No generated field holds a line break *)









(** ** The lines of written rows *)







(** ** What a call leaves in the file *)

Lemma append_file_text (w : world) (path text : string) (count : Z) (h : list string) :
  files w !! path = Some text ->
  read_existing_header text = Some h ->
  files (snd (append_synthetic_rows path count w)) !! path
  = Some (text +:+ writerows (aligned_rows (length h) count (random_state w))).
Proof.
  intros Hf Hh. rewrite (append_synthetic_rows_existing w path text count h Hf Hh).
  cbn [snd files]. apply lookup_insert_eq.
Qed.


Lemma aligned_rows_width (n : nat) (count : Z) (r : rng) :
  Forall (fun row => length row = n) (aligned_rows n count r).
Proof.
  unfold aligned_rows.
  induction (fst (new_rows (range_len count) r)) as [|row rows IH]; cbn [map];
    constructor; [apply align_row_length | assumption].
Qed.






(** ** A file whose last line has no line break *)



Lemma lines_of_CR_other (c' : ascii) (rest : string) :
  Ascii.eqb c' LF = false ->
  lines_of (String CR (String c' rest)) = String CR EmptyString :: lines_of (String c' rest).
Proof.
  intros H.
  change (lines_of (String CR (String c' rest)))
    with (if Ascii.eqb c' LF
          then String CR (String c' EmptyString) :: lines_of rest
          else String CR EmptyString :: lines_of (String c' rest)).
  now rewrite H.
Qed.







Lemma aligned_rows_cons (n : nat) (count : Z) (r : rng) :
  0 < count ->
  exists rows, aligned_rows n count r = align_row n (fst (generate_row r)) :: rows /\
               length rows = (Z.to_nat count - 1)%nat.
Proof.
  intros Hc. unfold aligned_rows, range_len.
  destruct (Z.to_nat count) as [|k] eqn:Hk; [lia|].
  cbn [new_rows]. unfold gbind, gret. cbn [fst snd map].
  eexists. split; [reflexivity|]. rewrite length_map, new_rows_length. lia.
Qed.





(** ** An empty file *)

Lemma align_row_same (n : nat) (row : list string) :
  length row = n -> align_row n row = row.
Proof. intros <-. unfold align_row. now rewrite Nat.ltb_irrefl. Qed.

Lemma generate_row_length (r : rng) : length (fst (generate_row r)) = 11%nat.
Proof.
  destruct (generate_row_fields r)
    as (pt & need & d & price & area & dir & rooms & toilets & legal & Hrow & _).
  now rewrite Hrow.
Qed.

Lemma generate_row_not_header (r : rng) : fst (generate_row r) <> HEADER.
Proof.
  destruct (generate_row_fields r)
    as (pt & need & d & price & area & dir & rooms & toilets & legal & Hrow & Hpt & _).
  rewrite Hrow. intros Heq. injection Heq as -> _.
  destruct Hpt as [Hpt|[]]. discriminate Hpt.
Qed.

(** X5: the script never writes a header.  After a call with a positive
    count on an empty file the first record of the file is the first
    generated row, with its eleven fields; it is not the generator's
    header, and it is what a later call reads as the existing header,
    without any warning. *)
Theorem append_to_empty_file_writes_no_header (w : world) (path : string) (count : Z) :
  files w !! path = Some EmptyString ->
  0 < count ->
  exists (new : string) (row : list string),
    row = fst (generate_row (random_state w)) /\
    files (snd (append_synthetic_rows path count w)) !! path = Some new /\
    reader_next new = Record_ row /\
    read_existing_header new = Some row /\
    row <> HEADER /\
    header_warning row = [].
Proof.
  intros Hf Hc.
  assert (Hh : read_existing_header EmptyString = Some HEADER) by reflexivity.
  destruct (aligned_rows_cons (length HEADER) count (random_state w) Hc)
    as (rows & Hrows & _).
  rewrite align_row_same in Hrows by apply generate_row_length.
  pose proof (append_file_text w path EmptyString count HEADER Hf Hh) as Hnew.
  rewrite Hrows in Hnew. cbn [writerows] in Hnew.
  change (EmptyString +:+ ?s) with s in Hnew.
  eexists. eexists. split; [reflexivity|]. split; [exact Hnew|].
  assert (Hread : reader_next (writerow (fst (generate_row (random_state w)))
                               +:+ writerows rows)
                  = Record_ (fst (generate_row (random_state w))))
    by apply reader_next_writerow_app.
  split; [exact Hread|].
  split.
  { unfold read_existing_header. rewrite Hread.
    pose proof (generate_row_length (random_state w)) as Hlen.
    destruct (fst (generate_row (random_state w))); [discriminate Hlen | reflexivity]. }
  split; [apply generate_row_not_header|].
  unfold header_warning. now rewrite generate_row_length.
Qed.

Lemma append_to_empty_file_writes_no_header_witness :
  exists (new : string) (row : list string),
    row = fst (generate_row sample_rng) /\
    files (snd (append_synthetic_rows "data.csv" 1 empty_file_world)) !! "data.csv"
      = Some new /\
    read_existing_header new = Some row /\
    row <> HEADER.
Proof.
  destruct (append_to_empty_file_writes_no_header empty_file_world "data.csv" 1)
    as (new & row & H1 & H2 & _ & H4 & H5 & _).
  - vm_compute. reflexivity.
  - lia.
  - exists new, row. auto.
Defined.

(** ** Calling twice *)

(** The first record of a file does not depend on what follows its line
    break. *)
Lemma reader_next_first_record (line nl rest rest' : string) :
  nl = String LF EmptyString \/ nl = LINETERMINATOR ->
  complete_record line = true ->
  reader_next (line +:+ nl +:+ rest) = reader_next (line +:+ nl +:+ rest').
Proof.
  intros Hnl Hok. unfold complete_record in Hok.
  destruct (process_record parse_reset line) as [q|] eqn:Hq; [|discriminate].
  apply andb_true_iff in Hok. destruct Hok as [H1 H2].
  assert (Hs1 : state q <> IN_QUOTED_FIELD)
    by (intros E; rewrite E in H1; discriminate).
  assert (Hs2 : state q <> EAT_CRNL)
    by (intros E; rewrite E in H2; discriminate).
  unfold reader_next.
  rewrite (process_record_reader line parse_reset q nl rest) by assumption.
  now rewrite (process_record_reader line parse_reset q nl rest') by assumption.
Qed.

Lemma read_existing_header_first_record (line nl rest extra : string) :
  nl = String LF EmptyString \/ nl = LINETERMINATOR ->
  complete_record line = true ->
  read_existing_header ((line +:+ nl +:+ rest) +:+ extra)
  = read_existing_header (line +:+ nl +:+ rest).
Proof.
  intros Hnl Hok. unfold read_existing_header.
  rewrite !append_assoc.
  now rewrite (reader_next_first_record line nl (rest +:+ extra) rest).
Qed.

Lemma new_rows_app (a b : nat) :
  forall r,
    fst (new_rows (a + b) r)
    = (fst (new_rows a r) ++ fst (new_rows b (snd (new_rows a r))))%list /\
    snd (new_rows (a + b) r) = snd (new_rows b (snd (new_rows a r))).
Proof.
  induction a as [|a IH]; intros r; [split; reflexivity|].
  cbn [Nat.add new_rows]. unfold gbind, gret. cbn [fst snd].
  destruct (IH (snd (generate_row r))) as [H1 H2].
  rewrite H1, H2. split; reflexivity.
Qed.

Lemma writerows_app (rows rows' : list (list string)) :
  writerows (rows ++ rows') = writerows rows +:+ writerows rows'.
Proof.
  induction rows as [|row rows IH]; [reflexivity|].
  cbn [writerows app]. now rewrite IH, append_assoc.
Qed.



(** X7: on such a file two calls in a row, with counts that are not
    negative, leave the files and the random state that one call with the
    sum of the counts leaves. *)
Theorem append_twice_is_append_sum
    (w : world) (path line nl rest : string) (k m : Z) :
  files w !! path = Some (line +:+ nl +:+ rest) ->
  nl = String LF EmptyString \/ nl = LINETERMINATOR ->
  complete_record line = true ->
  0 <= k -> 0 <= m ->
  files (snd (append_synthetic_rows path m (snd (append_synthetic_rows path k w))))
  = files (snd (append_synthetic_rows path (k + m) w)) /\
  random_state (snd (append_synthetic_rows path m (snd (append_synthetic_rows path k w))))
  = random_state (snd (append_synthetic_rows path (k + m) w)).
Proof.
  intros Hf Hnl Hok Hk Hm.
  set (text := line +:+ nl +:+ rest) in *.
  destruct (read_existing_header_total text) as (h & Hh & _).
  rewrite (append_synthetic_rows_existing w path text k h Hf Hh).
  rewrite (append_synthetic_rows_existing w path text (k + m) h Hf Hh).
  cbn [snd].
  match goal with
  | |- context [append_synthetic_rows path m ?w1] =>
      rewrite (append_synthetic_rows_existing w1 path
                 (text +:+ writerows (map (align_row (length h))
                            (fst (new_rows (range_len k) (random_state w))))) m h)
  end.
  - cbn [snd files random_state]. unfold range_len.
    rewrite Z2Nat.inj_add by assumption.
    destruct (new_rows_app (Z.to_nat k) (Z.to_nat m) (random_state w)) as [H1 H2].
    rewrite H1, H2. split; [|reflexivity].
    rewrite insert_insert_eq. f_equal.
    now rewrite map_app, writerows_app, append_assoc.
  - cbn [files]. apply lookup_insert_eq.
  - subst text. now rewrite read_existing_header_first_record.
Qed.

Lemma append_twice_is_append_sum_witness :
  files (snd (append_synthetic_rows "data.csv" 1
                (snd (append_synthetic_rows "data.csv" 1 sample_world))))
  = files (snd (append_synthetic_rows "data.csv" (1 + 1) sample_world)).
Proof.
  apply (append_twice_is_append_sum sample_world "data.csv" "a,b,c" LINETERMINATOR
           EmptyString 1 1).
  - vm_compute. reflexivity.
  - right. reflexivity.
  - reflexivity.
  - lia.
  - lia.
Defined.

(** ** [detect_header] *)

Example strip_samples :
  strip (String "009" "  QUẬN HUYỆN " +:+ String "010" EmptyString) = "QUẬN HUYỆN" /\
  strip (String "194" (String "160" "GIÁ - TRIỆU ĐỒNG")) = "GIÁ - TRIỆU ĐỒNG" /\
  strip "   " = EmptyString /\
  strip "a b" = "a b".
Proof. vm_compute. repeat split; reflexivity. Qed.

Lemma ascii_space_small (c : ascii) :
  ascii_space c = true -> (nat_of_ascii c <= 32)%nat.
Proof.
  unfold ascii_space. cbv zeta. intros H.
  apply orb_true_iff in H. destruct H as [H|H]; apply andb_true_iff in H;
    destruct H as [_ H]; apply Nat.leb_le in H; lia.
Qed.

Lemma byte_is_ascii_space (ws : ascii) (n : nat) :
  ascii_space ws = true -> (32 < n)%nat -> byte_is ws n = false.
Proof.
  intros H Hn. apply ascii_space_small in H. unfold byte_is.
  apply Nat.eqb_neq. lia.
Qed.

Lemma space2_ascii (c ws : ascii) : ascii_space ws = true -> space2 c ws = false.
Proof.
  intros H. unfold space2. now rewrite !(byte_is_ascii_space ws) by (assumption || lia).
Qed.

Lemma space3_ascii (c c2 ws : ascii) : ascii_space ws = true -> space3 c c2 ws = false.
Proof.
  intros H. unfold space3. cbv zeta.
  rewrite !(byte_is_ascii_space ws) by (assumption || lia).
  apply ascii_space_small in H.
  replace (128 <=? nat_of_ascii ws)%nat with false
    by (symmetry; apply Nat.leb_gt; lia).
  reflexivity.
Qed.

Lemma all_space_snoc_bounded (n : nat) :
  forall s ws, (String.length s <= n)%nat -> ascii_space ws = true ->
    all_space (s +:+ String ws EmptyString) = all_space s.
Proof.
  induction n as [|n IH]; intros s ws Hlen Hws.
  - destruct s; [|simpl in Hlen; lia].
    change (all_space (String ws EmptyString) = true). cbn [all_space]. now rewrite Hws.
  - destruct s as [|c1 [|c2 [|c3 s]]]; cbn [String.length] in Hlen.
    + change (all_space (String ws EmptyString) = true). cbn [all_space]. now rewrite Hws.
    + change (all_space (String c1 (String ws EmptyString)) = all_space (String c1 EmptyString)).
      cbn [all_space]. rewrite Hws, (space2_ascii c1 ws Hws).
      destruct (ascii_space c1); reflexivity.
    + change (all_space (String c1 (String c2 (String ws EmptyString)))
              = all_space (String c1 (String c2 EmptyString))).
      cbn [all_space]. rewrite Hws, (space2_ascii c2 ws Hws), (space3_ascii c1 c2 ws Hws).
      destruct (ascii_space c1); [destruct (ascii_space c2); reflexivity|].
      destruct (space2 c1 c2); reflexivity.
    + rewrite !append_cons.
      change (all_space (String c1 (String c2 (String c3 (s +:+ String ws EmptyString)))))
        with (if ascii_space c1
              then all_space (String c2 (String c3 s) +:+ String ws EmptyString)
              else if space2 c1 c2
                   then all_space (String c3 s +:+ String ws EmptyString)
                   else if space3 c1 c2 c3
                        then all_space (s +:+ String ws EmptyString)
                        else false).
      rewrite !IH by (cbn [String.length]; assumption || lia).
      reflexivity.
Qed.

Lemma all_space_snoc (s : string) (ws : ascii) :
  ascii_space ws = true -> all_space (s +:+ String ws EmptyString) = all_space s.
Proof. apply (all_space_snoc_bounded (String.length s)). lia. Qed.

Lemma lstrip_snoc_bounded (n : nat) :
  forall s ws, (String.length s <= n)%nat -> ascii_space ws = true ->
    lstrip (s +:+ String ws EmptyString)
    = if all_space s then EmptyString else lstrip s +:+ String ws EmptyString.
Proof.
  induction n as [|n IH]; intros s ws Hlen Hws.
  - destruct s; [|simpl in Hlen; lia].
    change (lstrip (String ws EmptyString) = EmptyString). cbn [lstrip]. now rewrite Hws.
  - destruct s as [|c1 [|c2 [|c3 s]]]; cbn [String.length] in Hlen.
    + change (lstrip (String ws EmptyString) = EmptyString). cbn [lstrip]. now rewrite Hws.
    + change (lstrip (String c1 (String ws EmptyString))
              = if all_space (String c1 EmptyString) then EmptyString
                else lstrip (String c1 EmptyString) +:+ String ws EmptyString).
      cbn [lstrip all_space]. rewrite Hws, (space2_ascii c1 ws Hws).
      destruct (ascii_space c1); reflexivity.
    + change (lstrip (String c1 (String c2 (String ws EmptyString)))
              = if all_space (String c1 (String c2 EmptyString)) then EmptyString
                else lstrip (String c1 (String c2 EmptyString)) +:+ String ws EmptyString).
      cbn [lstrip all_space].
      rewrite Hws, (space2_ascii c2 ws Hws), (space3_ascii c1 c2 ws Hws).
      destruct (ascii_space c1); [destruct (ascii_space c2); reflexivity|].
      destruct (space2 c1 c2); reflexivity.
    + rewrite !append_cons.
      change (lstrip (String c1 (String c2 (String c3 (s +:+ String ws EmptyString)))))
        with (if ascii_space c1
              then lstrip (String c2 (String c3 s) +:+ String ws EmptyString)
              else if space2 c1 c2
                   then lstrip (String c3 s +:+ String ws EmptyString)
                   else if space3 c1 c2 c3
                        then lstrip (s +:+ String ws EmptyString)
                        else String c1 (String c2 (String c3 s)) +:+ String ws EmptyString).
      rewrite !IH by (cbn [String.length]; assumption || lia).
      change (all_space (String c1 (String c2 (String c3 s))))
        with (if ascii_space c1 then all_space (String c2 (String c3 s))
              else if space2 c1 c2 then all_space (String c3 s)
                   else if space3 c1 c2 c3 then all_space s else false).
      change (lstrip (String c1 (String c2 (String c3 s))))
        with (if ascii_space c1 then lstrip (String c2 (String c3 s))
              else if space2 c1 c2 then lstrip (String c3 s)
                   else if space3 c1 c2 c3 then lstrip s
                        else String c1 (String c2 (String c3 s))).
      destruct (ascii_space c1); [reflexivity|].
      destruct (space2 c1 c2); [reflexivity|].
      destruct (space3 c1 c2 c3); reflexivity.
Qed.

Lemma lstrip_all_space_bounded (n : nat) :
  forall s, (String.length s <= n)%nat -> all_space s = true -> lstrip s = EmptyString.
Proof.
  induction n as [|n IH]; intros s Hlen Hs.
  - destruct s; [reflexivity | simpl in Hlen; lia].
  - destruct s as [|c1 [|c2 [|c3 s]]]; cbn [String.length] in Hlen; [reflexivity| | |].
    + cbn [all_space lstrip] in *. destruct (ascii_space c1); [reflexivity | discriminate].
    + cbn [all_space lstrip] in *.
      destruct (ascii_space c1); [destruct (ascii_space c2); [reflexivity | discriminate]|].
      destruct (space2 c1 c2); [reflexivity | discriminate].
    + change (all_space (String c1 (String c2 (String c3 s))))
        with (if ascii_space c1 then all_space (String c2 (String c3 s))
              else if space2 c1 c2 then all_space (String c3 s)
                   else if space3 c1 c2 c3 then all_space s else false) in Hs.
      change (lstrip (String c1 (String c2 (String c3 s))))
        with (if ascii_space c1 then lstrip (String c2 (String c3 s))
              else if space2 c1 c2 then lstrip (String c3 s)
                   else if space3 c1 c2 c3 then lstrip s
                        else String c1 (String c2 (String c3 s))).
      destruct (ascii_space c1); [apply IH; [cbn [String.length]; lia | assumption]|].
      destruct (space2 c1 c2); [apply IH; [cbn [String.length]; lia | assumption]|].
      destruct (space3 c1 c2 c3); [apply IH; [lia | assumption] | discriminate].
Qed.

Lemma rstrip_snoc (s : string) (ws : ascii) :
  ascii_space ws = true -> rstrip (s +:+ String ws EmptyString) = rstrip s.
Proof.
  intros Hws. induction s as [|c s IH].
  - change (rstrip (String ws EmptyString) = EmptyString).
    cbn [rstrip all_space]. now rewrite Hws.
  - rewrite append_cons. cbn [rstrip].
    rewrite <- append_cons, all_space_snoc by assumption.
    now rewrite IH.
Qed.

Lemma strip_snoc (s : string) (ws : ascii) :
  ascii_space ws = true -> strip (s +:+ String ws EmptyString) = strip s.
Proof.
  intros Hws. unfold strip.
  rewrite (lstrip_snoc_bounded (String.length s)) by (lia || assumption).
  destruct (all_space s) eqn:Hs.
  - now rewrite (lstrip_all_space_bounded (String.length s)) by (lia || assumption).
  - now apply rstrip_snoc.
Qed.

Lemma strip_cons (s : string) (ws : ascii) :
  ascii_space ws = true -> strip (String ws s) = strip s.
Proof. intros Hws. unfold strip. cbn [lstrip]. now rewrite Hws. Qed.

(** Whitespace of the ASCII range around a name does not count. *)
Lemma strip_padded (l r s : string) :
  string_exists (fun c => negb (ascii_space c)) l = false ->
  string_exists (fun c => negb (ascii_space c)) r = false ->
  strip (l +:+ s +:+ r) = strip s.
Proof.
  intros Hl Hr.
  assert (Hright : forall s, strip (s +:+ r) = strip s).
  { clear s Hl. induction r as [|c r IH]; intros s; [now rewrite append_nil_r|].
    cbn [string_exists] in Hr. apply orb_false_iff in Hr. destruct Hr as [Hc Hr].
    apply negb_false_iff in Hc.
    change (String c r) with (String c EmptyString +:+ r).
    rewrite <- append_assoc, IH by assumption. now apply strip_snoc. }
  induction l as [|c l IH]; [apply Hright|].
  cbn [string_exists] in Hl. apply orb_false_iff in Hl. destruct Hl as [Hc Hl].
  apply negb_false_iff in Hc.
  rewrite append_cons, strip_cons by assumption. now apply IH.
Qed.

Lemma detect_header_spec (ex de : list string) :
  detect_header ex de = true <-> ex <> [] /\ map strip ex = map strip de.
Proof.
  unfold detect_header. destruct ex as [|e ex].
  - split; [discriminate | intros [H _]; congruence].
  - cbv zeta. destruct (List.list_eq_dec _ _ _) as [Heq|Hne].
    + split; [intros _; split; [discriminate | assumption] | reflexivity].
    + split; [discriminate | intros [_ H]; contradiction].
Qed.

(** X8: an empty existing header never matches, not even an empty desired
    header, and two headers of different lengths never match. *)
Theorem detect_header_empty_or_other_length :
  (forall de, detect_header [] de = false) /\
  (forall ex de, length ex <> length de -> detect_header ex de = false).
Proof.
  split; [reflexivity|].
  intros ex de Hlen. apply not_true_is_false. intros H.
  apply detect_header_spec in H. destruct H as [_ H].
  apply (f_equal (@length string)) in H. rewrite !length_map in H. contradiction.
Qed.

(** X9: every non-empty header matches itself, and matching does not
    depend on which of the two headers is given first. *)
Theorem detect_header_reflexive_symmetric :
  (forall h, h <> [] -> detect_header h h = true) /\
  (forall a b, detect_header a b = detect_header b a).
Proof.
  split.
  - intros h Hne. apply detect_header_spec. auto.
  - assert (Hsym : forall a b, detect_header a b = true -> detect_header b a = true).
    { intros a b H. apply detect_header_spec in H. destruct H as [Hne Heq].
      apply detect_header_spec. split; [|now symmetry].
      intros ->. destruct a; [congruence | discriminate Heq]. }
    intros a b. destruct (detect_header a b) eqn:Hab.
    + symmetry. now apply Hsym.
    + destruct (detect_header b a) eqn:Hba; [|reflexivity].
      apply Hsym in Hba. congruence.
Qed.

(** X10: ASCII whitespace before and after the names does not change the
    answer, on either side of the comparison. *)
Theorem detect_header_ignores_padding (l r : string) (ex de : list string) :
  string_exists (fun c => negb (ascii_space c)) l = false ->
  string_exists (fun c => negb (ascii_space c)) r = false ->
  detect_header (map (fun s => l +:+ s +:+ r) ex) de = detect_header ex de /\
  detect_header ex (map (fun s => l +:+ s +:+ r) de) = detect_header ex de.
Proof.
  intros Hl Hr.
  assert (Hmap : forall h, map strip (map (fun s => l +:+ s +:+ r) h) = map strip h).
  { intros h. rewrite map_map. apply map_ext. intros s. now apply strip_padded. }
  split.
  - destruct ex as [|e ex]; [reflexivity|].
    unfold detect_header. cbn [map]. cbv zeta.
    change (strip (l +:+ e +:+ r) :: map strip (map (fun s => l +:+ s +:+ r) ex))
      with (map strip (map (fun s => l +:+ s +:+ r) (e :: ex))).
    now rewrite Hmap.
  - unfold detect_header. cbv zeta. now rewrite Hmap.
Qed.

Lemma detect_header_ignores_padding_witness :
  detect_header (map (fun s => "  " +:+ s +:+ " ") HEADER) HEADER
  = detect_header HEADER HEADER.
Proof.
  apply (detect_header_ignores_padding "  " " " HEADER HEADER); reflexivity.
Defined.

(** ** [sometimes_empty] at the ends of the probability range *)

(** X11: with [empty_prob] at least 1 the value function is never called:
    the result is the empty string and only the one draw is made; with
    [empty_prob] at most 0 it is always called, on the state after that
    draw. *)
Theorem sometimes_empty_edge_probabilities
    (value_func : Gen string) (empty_prob : Q) (r : rng) :
  ((1 <= empty_prob)%Q ->
   sometimes_empty value_func empty_prob r = (EmptyString, snd (random.random r))) /\
  ((empty_prob <= 0)%Q ->
   sometimes_empty value_func empty_prob r = value_func (snd (random.random r))).
Proof.
  pose proof (random_random_range r) as [H0 H1].
  unfold sometimes_empty, gbind.
  split; intros Hp; destruct (Qlt_le_dec _ _) as [Hlt|Hle];
    try reflexivity; exfalso; lra.
Qed.

(** ** The area field *)

Lemma round_half_even_bounds (a b : Z) (x : Q) :
  (inject_Z a <= x <= inject_Z b)%Q -> a <= round_half_even x <= b.
Proof.
  intros [Ha Hb]. unfold round_half_even. cbv zeta.
  assert (Hfa : a <= Qfloor x) by (rewrite <- (Qfloor_Z a); now apply Qfloor_resp_le).
  assert (Hfb : Qfloor x <= b) by (rewrite <- (Qfloor_Z b); now apply Qfloor_resp_le).
  assert (Hup : (1 # 2 <= x - inject_Z (Qfloor x))%Q -> Qfloor x + 1 <= b).
  { intros Hhalf.
    assert (Hlt : Qfloor x < b); [|lia].
    apply Z.le_neq. split; [assumption|]. intros Heq. rewrite Heq in Hhalf. lra. }
  destruct (Qcompare (x - inject_Z (Qfloor x)) (1 # 2)) eqn:Hcmp.
  - apply Qeq_alt in Hcmp.
    destruct (Z.even (Qfloor x)); [lia|].
    split; [lia|]. apply Hup. rewrite Hcmp. apply Qle_refl.
  - lia.
  - apply Qgt_alt in Hcmp. split; [lia|]. apply Hup. lra.
Qed.

Lemma format_1f_positive (x : Q) (lo hi : Z) :
  0 < lo -> (inject_Z lo <= x <= inject_Z hi)%Q ->
  exists n, 10 * lo <= n <= 10 * hi /\
            format_1f x = str (n / 10) +:+ "." +:+ str (n mod 10).
Proof.
  intros Hlo [H1 H2].
  assert (Hpos : (0 < x)%Q).
  { apply Qlt_le_trans with (inject_Z lo); [|assumption].
    change 0%Q with (inject_Z 0). now rewrite <- Zlt_Qlt. }
  exists (round_half_even (Qabs x * (10 # 1))). split.
  - apply round_half_even_bounds.
    rewrite Qabs_pos by now apply Qlt_le_weak.
    rewrite !inject_Z_mult. change (inject_Z 10) with (10 # 1). split; nra.
  - unfold format_1f. cbv zeta.
    replace (Qnum x <? 0)%Z with false; [reflexivity|].
    symmetry. apply Z.ltb_ge. destruct x as [nx dx]. unfold Qlt in Hpos. simpl in *. lia.
Qed.

(** X12: the area field of a generated row is empty or a decimal numeral
    with exactly one fractional digit whose value lies in the area range
    of the district's tier. *)
Theorem area_within_tier_range (r : rng) :
  let row := fst (generate_row r) in
  let lo := fst (area_range (row_district row)) in
  let hi := snd (area_range (row_district row)) in
  row_area row = EmptyString \/
  exists n, 10 * lo <= n <= 10 * hi /\ 0 <= n mod 10 <= 9 /\
            row_area row = str (n / 10) +:+ "." +:+ str (n mod 10).
Proof.
  intros row. subst row.
  destruct (generate_row_fields r)
    as (pt & need & d & price & area & dir & rooms & toilets & legal
        & Hrow & _ & _ & _ & _ & Harea & _).
  rewrite Hrow. unfold row_area, row_district. cbn [nth]. cbv zeta.
  destruct Harea as [->|(q & Hq & ->)]; [now left | right].
  destruct (format_1f_positive q (fst (area_range d)) (snd (area_range d)))
    as (n & Hn & Hfmt); [|assumption|].
  { unfold area_range. repeat destruct (py_in _ _); simpl; lia. }
  exists n. split; [assumption|]. split; [|assumption].
  pose proof (Z.mod_pos_bound n 10 ltac:(lia)). lia.
Qed.

(** ** [main] *)


(** With the default arguments and no file at the default path, [main]
    reports the missing file and fails. *)
Example main_default_args_sample :
  main default_args sample_world
  = (Raised (FileNotFoundError (args_file default_args)), sample_world,
     [FileNotFoundError "House_price/GiaChungCu_HCM_June2021_laydulieu_com.csv"]).
Proof. vm_compute. reflexivity. Qed.

(** ** A file without a first record *)

Lemma read_existing_header_blank (text : string) :
  text = EmptyString \/
  (exists rest, text = String LF rest) \/
  (exists rest, text = String CR rest) ->
  read_existing_header text = Some HEADER.
Proof.
  intros [-> | [[rest ->] | [rest ->]]]; [reflexivity | reflexivity |].
  destruct rest as [|c rest]; [reflexivity|].
  unfold read_existing_header, reader_next.
  destruct (Ascii.eqb c LF) eqn:Hc.
  - apply Ascii.eqb_eq in Hc. subst c. reflexivity.
  - now rewrite lines_of_CR_other.
Qed.

(** X14: a file that is empty or begins with a line break has no first
    record: the call takes the generator's own header, prints no warning
    whatever else the file holds, and writes rows of eleven fields. *)
Theorem append_without_first_record (w : world) (path text : string) (count : Z) :
  files w !! path = Some text ->
  text = EmptyString \/
  (exists rest, text = String LF rest) \/
  (exists rest, text = String CR rest) ->
  exists rows : list (list string),
    read_existing_header text = Some HEADER /\
    stdout (snd (append_synthetic_rows path count w))
      = (stdout w ++ [Appended (Z.to_nat count) path])%list /\
    files (snd (append_synthetic_rows path count w)) !! path
      = Some (text +:+ writerows rows) /\
    Forall (fun row => length row = 11%nat) rows.
Proof.
  intros Hf Hblank. pose proof (read_existing_header_blank text Hblank) as Hh.
  exists (aligned_rows (length HEADER) count (random_state w)).
  split; [exact Hh|].
  split.
  - rewrite (append_synthetic_rows_existing w path text count HEADER Hf Hh).
    cbn [snd stdout]. now rewrite length_map, new_rows_length.
  - split; [now apply append_file_text | apply (aligned_rows_width 11)].
Qed.

Lemma append_without_first_record_witness :
  exists rows : list (list string),
    stdout (snd (append_synthetic_rows "data.csv" 2 blank_first_line_world))
      = [Appended 2 "data.csv"] /\
    Forall (fun row => length row = 11%nat) rows.
Proof.
  destruct (append_without_first_record blank_first_line_world "data.csv"
              (String LF "x,y") 2) as (rows & _ & H2 & _ & H4).
  - vm_compute. reflexivity.
  - right. left. exists "x,y". reflexivity.
  - exists rows. split; [exact H2 | exact H4].
Defined.
